(** * Combat-resolution simulator: shallow embedding of [api/index.go]

    The Go handler decodes a request, derives a wound difficulty and runs
    [RunNumber] independent "touch -> hurt -> armor save -> invulnerability
    save" trials on six-sided dice.  This development embeds the functions
    of [api/index.go] and proves the properties stated about them.

    Conventions of the embedding:
    - Go's [int] is the 64-bit two's-complement integer of the usual
      targets (amd64, arm64): a [Z] together with an explicit [wrap] after
      every addition and multiplication the source performs;
    - the only effect of the program is the process-wide random generator
      of [math/rand/v2]; it is threaded as explicit state, and a panic
      (what [rand.IntN] does on a non-positive argument) is an explicit
      outcome;
    - a [for i := 0; i < n; i++] loop whose body ignores [i] is run
      [Z.to_nat n] times; a [range] loop over a slice is a left fold. *)

From Stdlib Require Import String ZArith List Lia Bool.
Import ListNotations.
Open Scope Z_scope.

(** ** Go's [int] *)

Module GoInt.

Definition min_int : Z := -9223372036854775808.
Definition max_int : Z := 9223372036854775807.
Definition modulus : Z := 18446744073709551616.

(** Two's-complement reduction of a mathematical integer to an [int]. *)
Definition wrap (z : Z) : Z := (z - min_int) mod modulus + min_int.

Definition is_int (z : Z) : Prop := min_int <= z <= max_int.

Definition add (a b : Z) : Z := wrap (a + b).
Definition mul (a b : Z) : Z := wrap (a * b).

End GoInt.
Import GoInt.

(** ** Data model *)

Record requestBody := {
  Strength : Z;
  Endurance : Z;
  rqDiceNumber : Z;
  rqTouchDifficulty : Z;
  rqArmorSave : Z;
  rqInvuSave : Z;
  rqRunNumber : Z
}.

Record params := {
  DiceNumber : Z;
  TouchDifficulty : Z;
  HurtDifficulty : Z;
  ArmorSave : Z;
  InvuSave : Z;
  RunNumber : Z
}.

(** ** The world a call runs in

    [tape] and [cursor] are the random generator: the [k]-th draw of the
    process reads cell [k] of the tape.  Every sequence of draws the real
    generator can produce is the reading of some tape.  [held] is the
    caller's own [params] variable (the local of [Handler] that is passed,
    by value, to [runAll]): it is part of the memory a call could in
    principle disturb, which is what a frame property talks about. *)

Record world := {
  tape : nat -> Z;
  cursor : nat;
  held : params
}.

Definition skip (k : nat) (w : world) : world :=
  {| tape := tape w; cursor := (cursor w + k)%nat; held := held w |}.

Inductive outcome (A : Type) : Type :=
| Ok (a : A) (w : world)
| Panic.
Arguments Ok {A} a w.
Arguments Panic {A}.

Definition M (A : Type) : Type := world -> outcome A.

Definition ret {A} (a : A) : M A := fun w => Ok a w.

Definition bind {A B} (m : M A) (k : A -> M B) : M B :=
  fun w => match m w with
           | Ok a w' => k a w'
           | Panic => Panic
           end.

Notation "x <- m ;; k" := (bind m (fun x => k))
  (at level 61, m at next level, right associativity).

(** [for i := 0; i < n; i++ { acc = body(acc) }] with a body that does not
    read [i], run for a given number of iterations. *)
Fixpoint for_loop {A} (iters : nat) (body : A -> M A) (acc : A) : M A :=
  match iters with
  | O => ret acc
  | S iters' => acc' <- body acc ;; for_loop iters' body acc'
  end.

(** [rand.IntN(n)] of math/rand/v2 (a library, not part of the repository):
    panics if [n <= 0], otherwise consumes one draw and returns a value in
    the half-open interval [0, n). *)
Definition IntN (n : Z) : M Z := fun w =>
  if n <=? 0 then Panic
  else Ok (tape w (cursor w) mod n) (skip 1 w).

(** ** Dice *)

Definition rollDice (sides : Z) : M Z :=
  r <- IntN sides ;; ret (add r 1).

Definition rollDices (numberOfDices sides : Z) : M (list Z) :=
  for_loop (Z.to_nat numberOfDices)
    (fun dicesResults =>
       r <- rollDice sides ;; ret (dicesResults ++ [add r 1]))
    [].

(** ** Difficulty *)

Definition getDifficulty (strength endurance : Z) : Z :=
  if strength >=? mul endurance 2 then 2
  else if strength >? endurance then 3
  else if mul strength 2 <=? endurance then 6
  else if strength <? endurance then 5
  else 4.

(** ** Stage filters *)

Definition getNumberOfTouches (params : params) (numberOfDices : Z) : M Z :=
  dicesResults <- rollDices numberOfDices 6 ;;
  ret (fold_left
         (fun numberOfTouches result =>
            if result >=? TouchDifficulty params
            then add numberOfTouches 1 else numberOfTouches)
         dicesResults 0).

Definition getNumberOfHurts (params : params) (numberOfDices : Z) : M Z :=
  dicesResults <- rollDices numberOfDices 6 ;;
  ret (fold_left
         (fun numberOfHurts result =>
            if result >=? HurtDifficulty params
            then add numberOfHurts 1 else numberOfHurts)
         dicesResults 0).

(** ** Save stages *)

Definition getNumberOfHurtsAfterSave (params : params) (numberOfHurts : Z)
  : M Z :=
  numberOfHurtsAfterArmorSave <-
    (if ArmorSave params >=? 1 then
       for_loop (Z.to_nat numberOfHurts)
         (fun numberOfHurtsAfterArmorSave =>
            r <- rollDice 6 ;;
            ret (if r <? ArmorSave params
                 then add numberOfHurtsAfterArmorSave 1
                 else numberOfHurtsAfterArmorSave))
         0
     else ret numberOfHurts) ;;
  numberOfHurtsAfterInvuSave <-
    (if InvuSave params >=? 1 then
       for_loop (Z.to_nat numberOfHurtsAfterArmorSave)
         (fun numberOfHurtsAfterInvuSave =>
            r <- rollDice 6 ;;
            ret (if r <? InvuSave params
                 then add numberOfHurtsAfterInvuSave 1
                 else numberOfHurtsAfterInvuSave))
         0
     else ret numberOfHurtsAfterArmorSave) ;;
  ret numberOfHurtsAfterInvuSave.

(** ** Trial driver *)

Definition runOnce (params : params) : M Z :=
  numberOfTouches <- getNumberOfTouches params (DiceNumber params) ;;
  numberOfHurts <- getNumberOfHurts params numberOfTouches ;;
  finalHurts <- getNumberOfHurtsAfterSave params numberOfHurts ;;
  ret finalHurts.

Definition runAll (params : params) : M (list Z) :=
  for_loop (Z.to_nat (RunNumber params))
    (fun allResults => r <- runOnce params ;; ret (allResults ++ [r]))
    [].

(** ** Request decoding and validation

    [encoding/json] and [go-playground/validator] are libraries; what the
    repository contributes is the [validate] tags on [requestBody] and the
    order in which [getParamsFromRequest] uses the two.  The decoder's
    result is an input here ([None] when decoding fails); the tags are
    interpreted as the validator documents them for integers: [required]
    rejects the zero value, [min=k] and [max=k] bound the value, the tags
    of a field are tried in order and its first failure is reported, and
    fields are reported in declaration order. *)

Inductive tag := tag_required | tag_min (k : Z) | tag_max (k : Z).

Definition tag_holds (t : tag) (v : Z) : bool :=
  match t with
  | tag_required => negb (v =? 0)
  | tag_min k => k <=? v
  | tag_max k => v <=? k
  end.

Record fieldError := { feField : string; feTag : tag; feValue : Z }.

Definition requestBody_tags : list (string * (requestBody -> Z) * list tag) :=
  [ ("Strength"%string, Strength, [tag_required; tag_min 1]);
    ("Endurance"%string, Endurance, [tag_required; tag_min 1]);
    ("DiceNumber"%string, rqDiceNumber, [tag_required; tag_min 1]);
    ("TouchDifficulty"%string, rqTouchDifficulty, [tag_required; tag_min 2; tag_max 6]);
    ("ArmorSave"%string, rqArmorSave, [tag_min 0; tag_max 6]);
    ("InvuSave"%string, rqInvuSave, [tag_min 0; tag_max 6]);
    ("RunNumber"%string, rqRunNumber, [tag_required; tag_min 1; tag_max 1000]) ].

Fixpoint first_failure (name : string) (v : Z) (ts : list tag)
  : list fieldError :=
  match ts with
  | [] => []
  | t :: ts' =>
      if tag_holds t v then first_failure name v ts'
      else [ {| feField := name; feTag := t; feValue := v |} ]
  end.

(** [validate.Struct(body)]: the empty list stands for a [nil] error. *)
Definition validate_Struct (body : requestBody) : list fieldError :=
  flat_map (fun '(name, get, ts) => first_failure name (get body) ts)
           requestBody_tags.

Inductive error :=
| InvalidJSON
| FieldRequired (field : string)
| FieldMin (field : string) (param value : Z)
| FieldMax (field : string) (param value : Z)
| ValidationFailed.

Definition formatValidationError (errs : list fieldError) : error :=
  match errs with
  | fe :: _ =>
      match feTag fe with
      | tag_required => FieldRequired (feField fe)
      | tag_min k => FieldMin (feField fe) k (feValue fe)
      | tag_max k => FieldMax (feField fe) k (feValue fe)
      end
  | [] => ValidationFailed
  end.

Definition zero_params : params :=
  {| DiceNumber := 0; TouchDifficulty := 0; HurtDifficulty := 0;
     ArmorSave := 0; InvuSave := 0; RunNumber := 0 |}.

Definition getParamsFromRequest (decoded : option requestBody)
  : params * option error :=
  match decoded with
  | None => (zero_params, Some InvalidJSON)
  | Some body =>
      match validate_Struct body with
      | (_ :: _) as errs => (zero_params, Some (formatValidationError errs))
      | [] =>
          let hurtDifficulty :=
            getDifficulty (Strength body) (Endurance body) in
          ({| TouchDifficulty := rqTouchDifficulty body;
              HurtDifficulty := hurtDifficulty;
              ArmorSave := rqArmorSave body;
              InvuSave := rqInvuSave body;
              RunNumber := rqRunNumber body;
              DiceNumber := rqDiceNumber body |}, None)
      end
  end.

(** ** The handler

    What [net/http] hands to [Handler] and what [Handler] writes back.  The
    request is its method and the outcome of decoding its body; the
    response is the status code and what is written: [http.Error] sets the
    code it is given, and a first write without an explicit code is a 200.
    The texts themselves are [fmt]'s rendering of the values kept here. *)

Record request := {
  Method : string;
  decodedBody : option requestBody
}.

Inductive written :=
| MethodNotAllowedText
| ErrorText (err : error)
| ResultsPage (results : list Z).

Record response := {
  StatusCode : Z;
  Written : written
}.

Definition StatusOK : Z := 200.
Definition StatusBadRequest : Z := 400.
Definition StatusMethodNotAllowed : Z := 405.

Definition Handler (r : request) : M response :=
  if negb (String.eqb (Method r) "POST") then
    ret {| StatusCode := StatusMethodNotAllowed;
           Written := MethodNotAllowedText |}
  else
    let '(params, err) := getParamsFromRequest (decodedBody r) in
    match err with
    | Some e =>
        ret {| StatusCode := StatusBadRequest; Written := ErrorText e |}
    | None =>
        results <- runAll params ;;
        ret {| StatusCode := StatusOK; Written := ResultsPage results |}
    end.

(** ** Vocabulary of the statements

    None of the definitions below is used by the embedding above; they
    name what the statements talk about. *)

(** The face [rollDice sides] reads in world [w]. *)
Definition face (sides : Z) (w : world) : Z :=
  tape w (cursor w) mod sides + 1.

(** The faces the next [k] calls of [rollDice sides] read, in call order. *)
Fixpoint faces (k : nat) (sides : Z) (w : world) : list Z :=
  match k with
  | O => []
  | S k' => face sides w :: faces k' sides (skip 1 w)
  end.

(** How many of the rolls satisfy [keep]. *)
Definition tally (keep : Z -> bool) (rolls : list Z) : Z :=
  Z.of_nat (length (filter keep rolls)).

(** The six-sided rolls a stage filter compares with its difficulty: the
    next [k] faces, each with the extra 1 that [rollDices] adds. *)
Definition shifted_faces (k : nat) (w : world) : list Z :=
  map (fun r => r + 1) (faces k 6 w).

(** One save stage as the design describes it: with a threshold of at
    least 1, one six-sided die is rolled per incoming wound and the wound
    passes when its roll is strictly below the threshold; otherwise the
    stage is skipped and every wound passes.  Returns the number of wounds
    that pass and the world the stage leaves. *)
Definition save_stage (threshold n : Z) (w : world) : Z * world :=
  if threshold >=? 1
  then (tally (fun r => r <? threshold) (faces (Z.to_nat n) 6 w),
        skip (Z.to_nat n) w)
  else (n, w).

(** [trials p w outs w']: starting in [w], successive calls of [runOnce p]
    return the elements of [outs], one call per element, each call starting
    in the world the previous one left, the last one leaving [w']. *)
Inductive trials (p : params) : world -> list Z -> world -> Prop :=
| trials_done w : trials p w [] w
| trials_step w x w1 outs w2 :
    runOnce p w = Ok x w1 ->
    trials p w1 outs w2 ->
    trials p w (x :: outs) w2.

(** A generator that returns the same raw value at every draw, and a
    parameter set, for concrete runs. *)
Definition constant_world (raw : Z) (p : params) : world :=
  {| tape := fun _ => raw; cursor := 0; held := p |}.

Definition sample_params : params :=
  {| DiceNumber := 10; TouchDifficulty := 4; HurtDifficulty := 4;
     ArmorSave := 0; InvuSave := 0; RunNumber := 1 |}.

(** A generator scripted to make [rollDice] return the given faces, in
    order (and face 1 once the script is exhausted). *)
Definition scripted_world (script : list Z) (p : params) : world :=
  {| tape := fun i => nth i script 1 - 1; cursor := 0; held := p |}.

(** The same parameter set asked for another number of runs. *)
Definition with_RunNumber (n : Z) (p : params) : params :=
  {| DiceNumber := DiceNumber p;
     TouchDifficulty := TouchDifficulty p;
     HurtDifficulty := HurtDifficulty p;
     ArmorSave := ArmorSave p;
     InvuSave := InvuSave p;
     RunNumber := n |}.

(** What the tags of [requestBody] ask of a body. *)
Definition in_ranges (body : requestBody) : Prop :=
  1 <= Strength body /\ 1 <= Endurance body /\ 1 <= rqDiceNumber body /\
  2 <= rqTouchDifficulty body <= 6 /\
  0 <= rqArmorSave body <= 6 /\ 0 <= rqInvuSave body <= 6 /\
  1 <= rqRunNumber body <= 1000.

(** * Proofs *)

(** ** Machine arithmetic *)

Lemma wrap_small z : is_int z -> wrap z = z.
Proof.
  unfold is_int, wrap, min_int, max_int, modulus. intros H.
  rewrite Z.mod_small; lia.
Qed.

Lemma wrap_is_int z : is_int (wrap z).
Proof.
  unfold is_int, wrap, min_int, max_int, modulus.
  pose proof (Z.mod_pos_bound (z - -9223372036854775808)
                18446744073709551616 ltac:(lia)).
  lia.
Qed.

Lemma add_small a b : is_int (a + b) -> add a b = a + b.
Proof. apply wrap_small. Qed.

Lemma mul_small a b : is_int (a * b) -> mul a b = a * b.
Proof. apply wrap_small. Qed.

Lemma incr_small a : 0 <= a < max_int -> add a 1 = a + 1.
Proof.
  intros H. apply add_small. unfold is_int, min_int, max_int in *. lia.
Qed.

(** ** Worlds *)

Lemma skip_0 w : skip 0 w = w.
Proof. destruct w; unfold skip; simpl. now rewrite Nat.add_0_r. Qed.

Lemma skip_skip j k w : skip k (skip j w) = skip (j + k) w.
Proof. unfold skip; simpl. now rewrite Nat.add_assoc. Qed.

Lemma held_skip k w : held (skip k w) = held w.
Proof. reflexivity. Qed.

Lemma tape_skip k w : tape (skip k w) = tape w.
Proof. reflexivity. Qed.

Lemma length_faces k sides w : length (faces k sides w) = k.
Proof.
  revert w; induction k as [|k IH]; intros w; simpl; [|rewrite IH]; easy.
Qed.

Lemma face_bounds sides w : 1 <= sides -> 1 <= face sides w <= sides.
Proof.
  intros H. unfold face.
  pose proof (Z.mod_pos_bound (tape w (cursor w)) sides ltac:(lia)). lia.
Qed.

Lemma faces_bounds k sides w :
  1 <= sides -> Forall (fun r => 1 <= r <= sides) (faces k sides w).
Proof.
  intros H. revert w; induction k as [|k IH]; intros w; simpl.
  - constructor.
  - constructor; [now apply face_bounds | apply IH].
Qed.

(** Any face of the die can come up: the generator is not constrained. *)
Lemma face_reachable sides v p :
  1 <= v <= sides -> face sides (constant_world (v - 1) p) = v.
Proof.
  intros H. unfold face, constant_world; simpl.
  rewrite Z.mod_small; lia.
Qed.

(** Any sequence of faces can come up, in any order: quantifying over
    worlds is quantifying over every sequence of draws. *)
Lemma faces_scripted_from sides p pre script :
  Forall (fun v => 1 <= v <= sides) script ->
  faces (length script) sides
        (skip (length pre) (scripted_world (pre ++ script) p))
  = script.
Proof.
  revert pre; induction script as [|v script IH]; intros pre Hall;
    [reflexivity|].
  inversion Hall as [|v' l' Hv Hall']; subst.
  simpl faces. f_equal.
  - unfold face, skip, scripted_world; simpl.
    rewrite app_nth2 by lia. rewrite Nat.sub_diag. simpl.
    rewrite Z.mod_small; lia.
  - specialize (IH (pre ++ [v]) Hall').
    rewrite <- app_assoc in IH. simpl in IH.
    rewrite skip_skip. rewrite length_app in IH. simpl in IH.
    exact IH.
Qed.

Lemma faces_scripted sides p script :
  Forall (fun v => 1 <= v <= sides) script ->
  faces (length script) sides (scripted_world script p) = script.
Proof.
  intros H. pose proof (faces_scripted_from sides p [] script H) as E.
  simpl in E. now rewrite skip_0 in E.
Qed.

(** ** The dice primitive *)

Lemma IntN_spec n w :
  1 <= n -> IntN n w = Ok (tape w (cursor w) mod n) (skip 1 w).
Proof.
  intros H. unfold IntN.
  destruct (n <=? 0) eqn:E; [apply Z.leb_le in E; lia | reflexivity].
Qed.

Lemma rollDice_spec sides w :
  1 <= sides <= max_int -> rollDice sides w = Ok (face sides w) (skip 1 w).
Proof.
  intros H. unfold rollDice, bind, ret. rewrite IntN_spec by lia.
  f_equal. unfold face.
  pose proof (Z.mod_pos_bound (tape w (cursor w)) sides ltac:(lia)).
  apply incr_small. lia.
Qed.

(** A loop whose body rolls one die and folds it into the accumulator
    reads the next [k] faces and leaves the generator [k] draws further. *)
Lemma for_loop_rollDice {A} (f : A -> Z -> A) sides k acc w :
  1 <= sides <= max_int ->
  for_loop k (fun a => r <- rollDice sides ;; ret (f a r)) acc w
  = Ok (fold_left f (faces k sides w) acc) (skip k w).
Proof.
  intros H. revert acc w; induction k as [|k IH]; intros acc w.
  - simpl. unfold ret. now rewrite skip_0.
  - simpl. unfold bind at 1. unfold bind at 1.
    rewrite rollDice_spec by exact H. unfold ret at 1.
    rewrite IH, skip_skip. reflexivity.
Qed.

Lemma fold_left_snoc_map {A B} (g : A -> B) l acc :
  fold_left (fun a r => a ++ [g r]) l acc = acc ++ map g l.
Proof.
  revert acc; induction l as [|x l IH]; intros acc; simpl.
  - now rewrite app_nil_r.
  - rewrite IH, <- app_assoc. reflexivity.
Qed.

Lemma rollDices_spec count sides w :
  1 <= sides <= max_int ->
  rollDices count sides w
  = Ok (map (fun r => add r 1) (faces (Z.to_nat count) sides w))
       (skip (Z.to_nat count) w).
Proof.
  intros H. unfold rollDices.
  rewrite (for_loop_rollDice (fun a r => a ++ [add r 1])) by exact H.
  now rewrite fold_left_snoc_map.
Qed.

Lemma nth_faces k sides w i d :
  (i < k)%nat -> nth i (faces k sides w) d = face sides (skip i w).
Proof.
  revert w i; induction k as [|k IH]; intros w i Hi; [lia|].
  destruct i as [|i]; simpl.
  - now rewrite skip_0.
  - rewrite IH by lia. rewrite skip_skip. reflexivity.
Qed.

(** C8: for every [sides >= 1] (an [int]) and every state of the generator,
    [rollDice sides] does not panic, returns an integer in the inclusive
    range [1, sides], and consumes exactly one draw: the value is the one
    read from the current cell, and the generator is left one cell
    further. *)
Theorem rollDice_range sides w :
  1 <= sides -> is_int sides ->
  exists r,
    rollDice sides w = Ok r (skip 1 w) /\
    r = face sides w /\
    1 <= r <= sides.
Proof.
  intros H1 [_ H2]. exists (face sides w). split; [|split].
  - apply rollDice_spec. lia.
  - reflexivity.
  - now apply face_bounds.
Qed.

Lemma rollDice_range_witness :
  (1 <= 6 /\ is_int 6) /\
  exists r,
    rollDice 6 (constant_world 4 sample_params)
    = Ok r (skip 1 (constant_world 4 sample_params)) /\
    r = face 6 (constant_world 4 sample_params) /\
    1 <= r <= 6.
Proof.
  assert (H : 1 <= 6 /\ is_int 6) by (unfold is_int, min_int, max_int; lia).
  split; [exact H|].
  apply (rollDice_range 6 (constant_world 4 sample_params));
    [exact (proj1 H) | exact (proj2 H)].
Defined.

(** C1, as stated, fails at the largest [int]: with [sides = max_int] and a
    draw of the top face, the extra [+1] of [rollDices] wraps around to
    [min_int], which is below 2. *)
Lemma rollDices_top_sides_wraps :
  0 <= 1 /\ 1 <= max_int /\
  rollDices 1 max_int (constant_world (max_int - 1) sample_params)
  = Ok [min_int] (skip 1 (constant_world (max_int - 1) sample_params)) /\
  ~ Forall (fun x => 2 <= x <= max_int + 1) [min_int].
Proof.
  split; [lia|]. split; [unfold max_int; lia|]. split.
  - vm_compute. reflexivity.
  - intros H. inversion H as [|x l Hx _]; subst.
    unfold min_int in Hx. lia.
Qed.

(** C1 (amended): for every [count >= 0] and every [sides] with
    [1 <= sides < max_int], [rollDices count sides] returns exactly [count]
    elements; the [i]-th element is what the [i]-th call of [rollDice sides]
    returns, plus 1; hence every element lies in [2, sides + 1]. *)
Theorem rollDices_shifted_range count sides w :
  0 <= count -> 1 <= sides < max_int ->
  exists out,
    rollDices count sides w = Ok out (skip (Z.to_nat count) w) /\
    Z.of_nat (length out) = count /\
    (forall i, (i < Z.to_nat count)%nat ->
       exists r, rollDice sides (skip i w) = Ok r (skip (S i) w) /\
                 nth i out 0 = r + 1) /\
    Forall (fun x => 2 <= x <= sides + 1) out.
Proof.
  intros Hc Hs.
  assert (Hshift : forall r, 1 <= r <= sides -> add r 1 = r + 1)
    by (intros r Hr; apply incr_small; lia).
  exists (map (fun r => add r 1) (faces (Z.to_nat count) sides w)).
  split; [apply rollDices_spec; lia|]. split; [|split].
  - rewrite length_map, length_faces. lia.
  - intros i Hi. exists (face sides (skip i w)). split.
    + rewrite rollDice_spec by lia. rewrite skip_skip.
      now rewrite Nat.add_1_r.
    + rewrite <- (nth_faces (Z.to_nat count) sides w i 0 Hi).
      rewrite <- Hshift.
      * change 0 with ((fun r => add r 1) (-1)) at 1.
        rewrite map_nth. rewrite (nth_indep _ (-1) 0); [reflexivity|].
        now rewrite length_faces.
      * rewrite nth_faces by exact Hi. apply face_bounds. lia.
  - apply Forall_map.
    eapply Forall_impl; [|apply (faces_bounds _ sides w); lia].
    simpl. intros r Hr. rewrite Hshift by exact Hr. lia.
Qed.

Lemma rollDices_shifted_range_witness :
  (0 <= 3 /\ 1 <= 6 < max_int) /\
  exists out,
    rollDices 3 6 (constant_world 4 sample_params)
    = Ok out (skip (Z.to_nat 3) (constant_world 4 sample_params)) /\
    Z.of_nat (length out) = 3 /\
    (forall i, (i < Z.to_nat 3)%nat ->
       exists r, rollDice 6 (skip i (constant_world 4 sample_params))
                 = Ok r (skip (S i) (constant_world 4 sample_params)) /\
                 nth i out 0 = r + 1) /\
    Forall (fun x => 2 <= x <= 6 + 1) out.
Proof.
  assert (H : 0 <= 3 /\ 1 <= 6 < max_int) by (unfold max_int; lia).
  split; [exact H|].
  apply (rollDices_shifted_range 3 6 (constant_world 4 sample_params));
    [exact (proj1 H) | exact (proj2 H)].
Defined.

(** ** Difficulty derivation *)

Lemma double_small x : 1 <= x -> 2 * x <= max_int -> mul x 2 = 2 * x.
Proof.
  intros H1 H2. unfold mul. rewrite wrap_small; [lia|].
  unfold is_int, min_int, max_int in *. lia.
Qed.

(** Whatever the arguments, also when a doubling wraps around, the result
    is one of the five ratings. *)
Lemma getDifficulty_rating strength endurance :
  In (getDifficulty strength endurance) [2; 3; 4; 5; 6].
Proof.
  unfold getDifficulty.
  repeat match goal with
         | |- context [if ?c then _ else _] => destruct c
         end; simpl; auto 10.
Qed.

(** The fallback is taken only by equal arguments, also when a doubling
    wraps around. *)
Lemma getDifficulty_4_only_equal strength endurance :
  getDifficulty strength endurance = 4 -> strength = endurance.
Proof.
  unfold getDifficulty.
  destruct (strength >=? mul endurance 2); [discriminate|].
  destruct (strength >? endurance) eqn:E1; [discriminate|].
  destruct (mul strength 2 <=? endurance); [discriminate|].
  destruct (strength <? endurance) eqn:E2; [discriminate|].
  intros _. rewrite Z.gtb_ltb in E1.
  apply Z.ltb_ge in E1, E2. lia.
Qed.

(** C3, as stated, fails where a doubling overflows: validation accepts
    strength 1 against endurance 2^62, the third row of the table applies
    (2 * 1 <= 2^62, and neither of the first two rows does), yet
    [endurance * 2] wraps around to [min_int] and the first comparison
    succeeds. *)
Lemma getDifficulty_overflow :
  1 <= 1 /\ 1 <= 4611686018427387904 /\ is_int 4611686018427387904 /\
  ~ 1 >= 2 * 4611686018427387904 /\
  ~ 1 > 4611686018427387904 /\
  2 * 1 <= 4611686018427387904 /\
  getDifficulty 1 4611686018427387904 = 2 /\
  getDifficulty 1 4611686018427387904 <> 6.
Proof.
  unfold is_int, min_int, max_int.
  repeat split; try lia; vm_compute; congruence.
Qed.

(** Equal arguments do not reach the fallback either once the doubling
    overflows. *)
Lemma getDifficulty_equal_overflow :
  getDifficulty 4611686018427387904 4611686018427387904 = 2.
Proof. vm_compute. reflexivity. Qed.

(** The doubling of [strength] is only reached once [strength] has been
    found at most [endurance]: it cannot overflow when that of
    [endurance] does not. *)
Lemma getDifficulty_exact_wide strength endurance :
  1 <= strength -> strength <= max_int ->
  1 <= endurance -> 2 * endurance <= max_int ->
  getDifficulty strength endurance
  = if strength >=? 2 * endurance then 2
    else if strength >? endurance then 3
    else if 2 * strength <=? endurance then 6
    else if strength <? endurance then 5
    else 4.
Proof.
  intros Hs Hi He He2. unfold getDifficulty.
  rewrite (double_small endurance) by lia.
  destruct (strength >=? 2 * endurance); [reflexivity|].
  destruct (strength >? endurance) eqn:E; [reflexivity|].
  rewrite Z.gtb_ltb in E. apply Z.ltb_ge in E.
  now rewrite (double_small strength) by lia.
Qed.

(** The bound on [endurance] cannot be relaxed: as soon as the doubling of
    a positive [endurance] overflows, the first comparison succeeds for
    every positive [strength], although the first row of the table never
    applies there. *)
Lemma getDifficulty_endurance_overflow strength endurance :
  1 <= strength -> strength <= max_int ->
  endurance <= max_int -> max_int < 2 * endurance ->
  getDifficulty strength endurance = 2 /\ ~ strength >= 2 * endurance.
Proof.
  intros Hs Hi He He2. split; [|unfold max_int in *; lia].
  unfold getDifficulty.
  assert (Hw : mul endurance 2 = 2 * endurance - modulus).
  { unfold mul, wrap, min_int, modulus, max_int in *.
    replace (endurance * 2 - -9223372036854775808)
      with (2 * endurance - 9223372036854775808
            + 1 * 18446744073709551616) by lia.
    rewrite Z.mod_add by lia. rewrite Z.mod_small by lia. lia. }
  rewrite Hw.
  destruct (strength >=? 2 * endurance - modulus) eqn:E; [reflexivity|].
  rewrite Z.geb_leb in E. apply Z.leb_gt in E.
  unfold modulus, max_int in *. lia.
Qed.

(** C3 (amended): for all positive [strength] and [endurance] such that
    the double of [endurance] fits in an [int], the conditions are checked
    in order, first match winning: 2 if [strength >= 2 * endurance]; else
    3 if [strength > endurance]; else 6 if [2 * strength <= endurance];
    else 5 if [strength < endurance]; else 4.  The value is in
    {2,3,4,5,6}, the five spot checks hold, and 4 is returned exactly when
    the two are equal. *)
Theorem getDifficulty_table strength endurance :
  1 <= strength -> strength <= max_int ->
  1 <= endurance -> 2 * endurance <= max_int ->
  let d := getDifficulty strength endurance in
  (strength >= 2 * endurance -> d = 2) /\
  (~ strength >= 2 * endurance -> strength > endurance -> d = 3) /\
  (~ strength >= 2 * endurance -> ~ strength > endurance ->
   2 * strength <= endurance -> d = 6) /\
  (~ strength >= 2 * endurance -> ~ strength > endurance ->
   ~ 2 * strength <= endurance -> strength < endurance -> d = 5) /\
  (~ strength >= 2 * endurance -> ~ strength > endurance ->
   ~ 2 * strength <= endurance -> ~ strength < endurance -> d = 4) /\
  In d [2; 3; 4; 5; 6] /\
  (d = 4 <-> strength = endurance) /\
  getDifficulty endurance endurance = 4 /\
  getDifficulty 10 5 = 2 /\
  getDifficulty 6 5 = 3 /\
  getDifficulty 5 6 = 5 /\
  getDifficulty 5 11 = 6.
Proof.
  intros Hs Hi He He2 d.
  assert (Hd : d = if strength >=? 2 * endurance then 2
                   else if strength >? endurance then 3
                   else if 2 * strength <=? endurance then 6
                   else if strength <? endurance then 5
                   else 4)
    by (subst d; now apply getDifficulty_exact_wide).
  assert (Hee : getDifficulty endurance endurance = 4).
  { rewrite getDifficulty_exact_wide by lia.
    destruct (endurance >=? 2 * endurance) eqn:E1;
      [rewrite Z.geb_leb in E1; apply Z.leb_le in E1; lia|].
    destruct (endurance >? endurance) eqn:E2;
      [rewrite Z.gtb_ltb in E2; apply Z.ltb_lt in E2; lia|].
    destruct (2 * endurance <=? endurance) eqn:E3;
      [apply Z.leb_le in E3; lia|].
    destruct (endurance <? endurance) eqn:E4;
      [apply Z.ltb_lt in E4; lia | reflexivity]. }
  destruct (strength >=? 2 * endurance) eqn:E1;
    rewrite Z.geb_leb in E1;
    [apply Z.leb_le in E1 | apply Z.leb_gt in E1];
  (destruct (strength >? endurance) eqn:E2;
    rewrite Z.gtb_ltb in E2;
    [apply Z.ltb_lt in E2 | apply Z.ltb_ge in E2]);
  (destruct (2 * strength <=? endurance) eqn:E3;
    [apply Z.leb_le in E3 | apply Z.leb_gt in E3]);
  (destruct (strength <? endurance) eqn:E4;
    [apply Z.ltb_lt in E4 | apply Z.ltb_ge in E4]);
  try lia;
  (repeat split; try (intros; lia); try exact Hee;
   try (rewrite Hd; simpl; auto 10; fail);
   try (vm_compute; reflexivity)).
Qed.

(** ** Counting loops *)

Lemma tally_bounds keep l : 0 <= tally keep l <= Z.of_nat (length l).
Proof.
  unfold tally. pose proof (filter_length_le keep l). lia.
Qed.

Lemma tally_cons keep x l :
  tally keep (x :: l) = (if keep x then 1 else 0) + tally keep l.
Proof.
  unfold tally. simpl. destruct (keep x); simpl length; lia.
Qed.

(** A counter incremented once per kept element never wraps around as long
    as the slice itself has an [int] length. *)
Lemma count_fold (keep : Z -> bool) l acc :
  0 <= acc -> acc + Z.of_nat (length l) <= max_int ->
  fold_left (fun a r => if keep r then add a 1 else a) l acc
  = acc + tally keep l.
Proof.
  revert acc; induction l as [|x l IH]; intros acc H0 H1.
  - unfold tally; simpl. lia.
  - simpl fold_left. rewrite tally_cons. simpl length in H1.
    destruct (keep x).
    + rewrite incr_small by lia. rewrite IH by lia. lia.
    + rewrite IH by lia. lia.
Qed.

Lemma max_int_pos : 0 < max_int.
Proof. reflexivity. Qed.

Lemma to_nat_int n : n <= max_int -> Z.of_nat (Z.to_nat n) <= max_int.
Proof. unfold max_int. lia. Qed.

Lemma rollDices_6 n w :
  rollDices n 6 w
  = Ok (shifted_faces (Z.to_nat n) w) (skip (Z.to_nat n) w).
Proof.
  rewrite rollDices_spec by (unfold max_int; lia).
  f_equal. unfold shifted_faces. apply map_ext_in.
  intros r Hr.
  pose proof (faces_bounds (Z.to_nat n) 6 w ltac:(lia)) as HB.
  rewrite Forall_forall in HB. specialize (HB r Hr).
  apply incr_small. unfold max_int. lia.
Qed.

Lemma length_shifted_faces k w : length (shifted_faces k w) = k.
Proof. unfold shifted_faces. now rewrite length_map, length_faces. Qed.

Lemma shifted_faces_bounds k w :
  Forall (fun x => 2 <= x <= 7) (shifted_faces k w).
Proof.
  unfold shifted_faces. apply Forall_map.
  eapply Forall_impl; [|apply (faces_bounds k 6 w); lia].
  simpl. intros; lia.
Qed.

(** ** Stage filters *)

Lemma getNumberOfTouches_spec p n w :
  n <= max_int ->
  getNumberOfTouches p n w
  = Ok (tally (fun r => r >=? TouchDifficulty p)
              (shifted_faces (Z.to_nat n) w))
       (skip (Z.to_nat n) w).
Proof.
  intros H. unfold getNumberOfTouches, bind. rewrite rollDices_6.
  unfold ret. f_equal.
  rewrite (count_fold (fun r => r >=? TouchDifficulty p)).
  - lia.
  - lia.
  - rewrite length_shifted_faces. pose proof (to_nat_int n H). lia.
Qed.

Lemma getNumberOfHurts_spec p n w :
  n <= max_int ->
  getNumberOfHurts p n w
  = Ok (tally (fun r => r >=? HurtDifficulty p)
              (shifted_faces (Z.to_nat n) w))
       (skip (Z.to_nat n) w).
Proof.
  intros H. unfold getNumberOfHurts, bind. rewrite rollDices_6.
  unfold ret. f_equal.
  rewrite (count_fold (fun r => r >=? HurtDifficulty p)).
  - lia.
  - lia.
  - rewrite length_shifted_faces. pose proof (to_nat_int n H). lia.
Qed.

Lemma tally_stage_bounds keep n w :
  0 <= tally keep (shifted_faces (Z.to_nat n) w) <= Z.max 0 n.
Proof.
  pose proof (tally_bounds keep (shifted_faces (Z.to_nat n) w)) as H.
  rewrite length_shifted_faces in H. lia.
Qed.

Lemma tally_all keep l :
  Forall (fun x => keep x = true) l -> tally keep l = Z.of_nat (length l).
Proof.
  intros H. unfold tally. f_equal. f_equal.
  induction H as [|x l Hx _ IH]; simpl; [reflexivity|].
  rewrite Hx. simpl. now rewrite IH.
Qed.

(** C6: for every number of dice [n >= 0] (an [int]) and every parameter
    set, [getNumberOfTouches] and [getNumberOfHurts] do not panic and
    return a count in [0, n], having drawn [n] dice; with [n = 0] they draw
    no die at all (the generator is left as it was) and return 0. *)
Theorem stage_filters_total p n w :
  0 <= n -> n <= max_int ->
  (exists t, getNumberOfTouches p n w = Ok t (skip (Z.to_nat n) w) /\
             0 <= t <= n) /\
  (exists h, getNumberOfHurts p n w = Ok h (skip (Z.to_nat n) w) /\
             0 <= h <= n) /\
  (n = 0 -> getNumberOfTouches p n w = Ok 0 w /\
            getNumberOfHurts p n w = Ok 0 w).
Proof.
  intros H0 H1. split; [|split].
  - eexists. split; [apply getNumberOfTouches_spec; exact H1|].
    pose proof (tally_stage_bounds (fun r => r >=? TouchDifficulty p) n w).
    lia.
  - eexists. split; [apply getNumberOfHurts_spec; exact H1|].
    pose proof (tally_stage_bounds (fun r => r >=? HurtDifficulty p) n w).
    lia.
  - intros ->. rewrite getNumberOfTouches_spec, getNumberOfHurts_spec
      by (unfold max_int; lia).
    simpl. now rewrite skip_0.
Qed.

Lemma stage_filters_total_witness :
  (0 <= 3 /\ 3 <= max_int) /\
  exists t, getNumberOfTouches sample_params 3 (constant_world 4 sample_params)
            = Ok t (skip (Z.to_nat 3) (constant_world 4 sample_params)) /\
            0 <= t <= 3.
Proof.
  assert (H : 0 <= 3 /\ 3 <= max_int) by (unfold max_int; lia).
  split; [exact H|].
  exact (proj1 (stage_filters_total sample_params 3
                  (constant_world 4 sample_params) (proj1 H) (proj2 H))).
Defined.

(** C7: with a touch difficulty of 2 (respectively a hurt difficulty of 2),
    for every number of dice [n >= 0] and every state of the generator,
    [getNumberOfTouches] (respectively [getNumberOfHurts]) returns exactly
    [n]: every element of [rollDices n 6] is at least 2, so no element
    stands for face 1 and the filter keeps all [n] dice. *)
Theorem difficulty_2_passes_all p n w :
  0 <= n -> n <= max_int ->
  (TouchDifficulty p = 2 ->
   getNumberOfTouches p n w = Ok n (skip (Z.to_nat n) w)) /\
  (HurtDifficulty p = 2 ->
   getNumberOfHurts p n w = Ok n (skip (Z.to_nat n) w)) /\
  (exists dices, rollDices n 6 w = Ok dices (skip (Z.to_nat n) w) /\
                 Forall (fun x => 2 <= x /\ x <> 1) dices).
Proof.
  intros H0 H1.
  assert (Hall : tally (fun r => r >=? 2) (shifted_faces (Z.to_nat n) w) = n).
  { rewrite tally_all.
    - rewrite length_shifted_faces. lia.
    - eapply Forall_impl; [|apply shifted_faces_bounds].
      simpl. intros x Hx. rewrite Z.geb_leb. apply Z.leb_le. lia. }
  split; [|split].
  - intros Ht. rewrite getNumberOfTouches_spec by exact H1.
    rewrite Ht, Hall. reflexivity.
  - intros Hh. rewrite getNumberOfHurts_spec by exact H1.
    rewrite Hh, Hall. reflexivity.
  - eexists. split; [apply rollDices_6|].
    eapply Forall_impl; [|apply shifted_faces_bounds].
    simpl. intros; lia.
Qed.

Lemma difficulty_2_passes_all_witness :
  let p := {| DiceNumber := 5; TouchDifficulty := 2; HurtDifficulty := 2;
              ArmorSave := 0; InvuSave := 0; RunNumber := 1 |} in
  (0 <= 5 /\ 5 <= max_int /\ TouchDifficulty p = 2 /\ HurtDifficulty p = 2) /\
  getNumberOfTouches p 5 (constant_world 0 p)
  = Ok 5 (skip (Z.to_nat 5) (constant_world 0 p)) /\
  getNumberOfHurts p 5 (constant_world 0 p)
  = Ok 5 (skip (Z.to_nat 5) (constant_world 0 p)).
Proof.
  intros p.
  assert (H : 0 <= 5 /\ 5 <= max_int) by (unfold max_int; lia).
  split; [repeat split; try reflexivity; apply H|].
  destruct (difficulty_2_passes_all p 5 (constant_world 0 p)
              (proj1 H) (proj2 H)) as (Ht & Hh & _).
  split; [apply Ht | apply Hh]; reflexivity.
Defined.

(** ** Save stages *)

Lemma save_loop t n w :
  n <= max_int ->
  for_loop (Z.to_nat n)
    (fun a => r <- rollDice 6 ;; ret (if r <? t then add a 1 else a)) 0 w
  = Ok (tally (fun r => r <? t) (faces (Z.to_nat n) 6 w))
       (skip (Z.to_nat n) w).
Proof.
  intros H.
  rewrite (for_loop_rollDice (fun a r => if r <? t then add a 1 else a))
    by (unfold max_int; lia).
  f_equal. rewrite (count_fold (fun r => r <? t)).
  - lia.
  - lia.
  - rewrite length_faces. pose proof (to_nat_int n H). lia.
Qed.

Lemma save_stage_bounds t n w :
  0 <= n ->
  0 <= fst (save_stage t n w) <= n /\
  exists k, snd (save_stage t n w) = skip k w.
Proof.
  intros H. unfold save_stage. destruct (t >=? 1); simpl.
  - pose proof (tally_bounds (fun r => r <? t) (faces (Z.to_nat n) 6 w)) as B.
    rewrite length_faces in B. split; [lia | now eexists].
  - split; [lia | exists 0%nat; now rewrite skip_0].
Qed.

(** The function is the armor stage followed by the invulnerability stage
    on what the armor stage lets through. *)
Lemma getNumberOfHurtsAfterSave_spec p n w :
  0 <= n <= max_int ->
  getNumberOfHurtsAfterSave p n w
  = let (a, w1) := save_stage (ArmorSave p) n w in
    let (b, w2) := save_stage (InvuSave p) a w1 in
    Ok b w2.
Proof.
  intros H.
  pose proof (save_stage_bounds (ArmorSave p) n w ltac:(lia)) as [Ba _].
  unfold getNumberOfHurtsAfterSave, save_stage in *.
  destruct (ArmorSave p >=? 1); simpl fst in Ba.
  - unfold bind at 1. rewrite save_loop by lia. cbv beta iota.
    destruct (InvuSave p >=? 1).
    + unfold bind at 1. rewrite save_loop by lia. reflexivity.
    + reflexivity.
  - unfold bind at 1. unfold ret at 1. cbv beta iota.
    destruct (InvuSave p >=? 1).
    + unfold bind at 1. rewrite save_loop by lia. reflexivity.
    + reflexivity.
Qed.

Lemma faces_are_rolls k sides w i :
  1 <= sides <= max_int -> (i < k)%nat ->
  rollDice sides (skip i w) = Ok (nth i (faces k sides w) 0) (skip (S i) w).
Proof.
  intros H Hi. rewrite rollDice_spec by exact H.
  rewrite nth_faces by exact Hi. rewrite skip_skip.
  now rewrite Nat.add_1_r.
Qed.

(** C4: with an armor save of at least 1 and [n >= 0] incoming wounds, one
    [rollDice 6] is drawn per wound and the armor stage lets through exactly
    the wounds whose roll is strictly below [ArmorSave]; the invulnerability
    stage, when [InvuSave >= 1], does the same with [InvuSave] on the wounds
    the armor stage let through, and is skipped otherwise.  With an armor
    save of 6, a wound that rolls 5 passes and a wound that rolls 6 is
    absorbed. *)
Theorem save_stages_filter p n w :
  1 <= ArmorSave p -> 0 <= n -> n <= max_int ->
  let rolls := faces (Z.to_nat n) 6 w in
  let passed := tally (fun r => r <? ArmorSave p) rolls in
  let w1 := skip (Z.to_nat n) w in
  (forall i, (i < Z.to_nat n)%nat ->
     rollDice 6 (skip i w) = Ok (nth i rolls 0) (skip (S i) w)) /\
  (InvuSave p < 1 -> getNumberOfHurtsAfterSave p n w = Ok passed w1) /\
  (1 <= InvuSave p ->
   getNumberOfHurtsAfterSave p n w
   = Ok (tally (fun r => r <? InvuSave p) (faces (Z.to_nat passed) 6 w1))
        (skip (Z.to_nat passed) w1)) /\
  (ArmorSave p = 6 -> InvuSave p < 1 -> n = 1 ->
   (face 6 w = 5 -> getNumberOfHurtsAfterSave p n w = Ok 1 (skip 1 w)) /\
   (face 6 w = 6 -> getNumberOfHurtsAfterSave p n w = Ok 0 (skip 1 w))).
Proof.
  intros Ha H0 H1 rolls passed w1.
  assert (Hspec := getNumberOfHurtsAfterSave_spec p n w (conj H0 H1)).
  unfold save_stage in Hspec.
  assert (Ea : (ArmorSave p >=? 1) = true)
    by (rewrite Z.geb_leb; apply Z.leb_le; lia).
  rewrite Ea in Hspec. fold rolls passed w1 in Hspec.
  assert (Hlow : InvuSave p < 1 ->
                 getNumberOfHurtsAfterSave p n w = Ok passed w1).
  { intros Hi. rewrite Hspec.
    assert (Ei : (InvuSave p >=? 1) = false)
      by (rewrite Z.geb_leb; apply Z.leb_gt; lia).
    now rewrite Ei. }
  split; [|split; [|split]].
  - intros i Hi. apply faces_are_rolls; [unfold max_int; lia | exact Hi].
  - exact Hlow.
  - intros Hi. rewrite Hspec.
    assert (Ei : (InvuSave p >=? 1) = true)
      by (rewrite Z.geb_leb; apply Z.leb_le; lia).
    now rewrite Ei.
  - intros H6 Hi Hn. rewrite (Hlow Hi). subst n passed rolls w1.
    rewrite H6. simpl. unfold tally. simpl.
    split; intros ->; reflexivity.
Qed.

Lemma save_stages_filter_witness :
  let p := {| DiceNumber := 10; TouchDifficulty := 4; HurtDifficulty := 4;
              ArmorSave := 6; InvuSave := 0; RunNumber := 1 |} in
  (1 <= ArmorSave p /\ 0 <= 1 /\ 1 <= max_int /\ InvuSave p < 1 /\
   face 6 (constant_world 4 p) = 5 /\ face 6 (constant_world 5 p) = 6) /\
  getNumberOfHurtsAfterSave p 1 (constant_world 4 p)
  = Ok 1 (skip 1 (constant_world 4 p)) /\
  getNumberOfHurtsAfterSave p 1 (constant_world 5 p)
  = Ok 0 (skip 1 (constant_world 5 p)).
Proof.
  intros p.
  assert (Ha : 1 <= ArmorSave p) by (simpl; lia).
  assert (H0 : 0 <= 1) by lia.
  assert (H1 : 1 <= max_int) by (unfold max_int; lia).
  assert (Hi : InvuSave p < 1) by (simpl; lia).
  split; [repeat split; assumption || reflexivity|].
  split.
  - destruct (save_stages_filter p 1 (constant_world 4 p) Ha H0 H1)
      as (_ & _ & _ & B).
    apply (B eq_refl Hi eq_refl). reflexivity.
  - destruct (save_stages_filter p 1 (constant_world 5 p) Ha H0 H1)
      as (_ & _ & _ & B).
    apply (B eq_refl Hi eq_refl). reflexivity.
Defined.

(** C5: with [ArmorSave = 0] and [InvuSave = 0], for every wound count [n]
    (in particular every [n >= 0]) and every state of the generator,
    [getNumberOfHurtsAfterSave p n] returns [n] and draws nothing: both
    stages are skipped.  Hence a trial returns exactly what its hurt stage
    returns. *)
Theorem no_saves_identity p n w :
  ArmorSave p = 0 -> InvuSave p = 0 ->
  getNumberOfHurtsAfterSave p n w = Ok n w /\
  (forall t w1 h w2,
     getNumberOfTouches p (DiceNumber p) w = Ok t w1 ->
     getNumberOfHurts p t w1 = Ok h w2 ->
     runOnce p w = Ok h w2).
Proof.
  intros Ha Hi.
  assert (Hid : forall m v, getNumberOfHurtsAfterSave p m v = Ok m v).
  { intros m v. unfold getNumberOfHurtsAfterSave. rewrite Ha, Hi.
    reflexivity. }
  split; [apply Hid|].
  intros t w1 h w2 Ht Hh. unfold runOnce, bind.
  rewrite Ht, Hh, Hid. reflexivity.
Qed.

Lemma no_saves_identity_witness :
  (ArmorSave sample_params = 0 /\ InvuSave sample_params = 0) /\
  getNumberOfHurtsAfterSave sample_params 7 (constant_world 4 sample_params)
  = Ok 7 (constant_world 4 sample_params).
Proof.
  split; [split; reflexivity|].
  exact (proj1 (no_saves_identity sample_params 7
                  (constant_world 4 sample_params) eq_refl eq_refl)).
Defined.

(** ** Trial driver *)

Lemma getNumberOfHurtsAfterSave_total p n w :
  0 <= n <= max_int ->
  exists x k,
    getNumberOfHurtsAfterSave p n w = Ok x (skip k w) /\ 0 <= x <= n.
Proof.
  intros H. rewrite getNumberOfHurtsAfterSave_spec by exact H.
  destruct (save_stage_bounds (ArmorSave p) n w ltac:(lia)) as [Ba [ka Ea]].
  destruct (save_stage (ArmorSave p) n w) as [a w1]. simpl in Ba, Ea.
  destruct (save_stage_bounds (InvuSave p) a w1 ltac:(lia)) as [Bb [kb Eb]].
  destruct (save_stage (InvuSave p) a w1) as [b w2]. simpl in Bb, Eb.
  exists b, (ka + kb)%nat. subst w2 w1. rewrite skip_skip.
  split; [reflexivity | lia].
Qed.

(** One trial: the three stages in order, each count bounded by the count
    entering the stage. *)
Lemma runOnce_chain p w :
  DiceNumber p <= max_int ->
  exists t h x w1 w2 w3,
    getNumberOfTouches p (DiceNumber p) w = Ok t w1 /\
    getNumberOfHurts p t w1 = Ok h w2 /\
    getNumberOfHurtsAfterSave p h w2 = Ok x w3 /\
    runOnce p w = Ok x w3 /\
    0 <= x <= h /\ h <= t /\ t <= Z.max 0 (DiceNumber p) /\
    exists k, w3 = skip k w.
Proof.
  intros Hd.
  pose proof (getNumberOfTouches_spec p (DiceNumber p) w Hd) as Ht.
  pose proof (tally_stage_bounds (fun r => r >=? TouchDifficulty p)
                (DiceNumber p) w) as Bt.
  set (t := tally _ _) in Ht, Bt.
  set (w1 := skip (Z.to_nat (DiceNumber p)) w) in Ht.
  pose proof max_int_pos as Hpos.
  assert (Ht' : t <= max_int) by lia.
  pose proof (getNumberOfHurts_spec p t w1 Ht') as Hh.
  pose proof (tally_stage_bounds (fun r => r >=? HurtDifficulty p) t w1) as Bh.
  set (h := tally _ _) in Hh, Bh.
  set (w2 := skip (Z.to_nat t) w1) in Hh.
  destruct (getNumberOfHurtsAfterSave_total p h w2 ltac:(lia))
    as (x & k & Hx & Bx).
  exists t, h, x, w1, w2, (skip k w2).
  repeat split; try assumption; try lia.
  - unfold runOnce, bind. rewrite Ht, Hh, Hx. reflexivity.
  - exists (Z.to_nat (DiceNumber p) + Z.to_nat t + k)%nat.
    subst w2 w1. rewrite !skip_skip. f_equal. lia.
Qed.

Lemma runOnce_total p w :
  DiceNumber p <= max_int ->
  exists x k, runOnce p w = Ok x (skip k w) /\
              0 <= x <= Z.max 0 (DiceNumber p).
Proof.
  intros Hd.
  destruct (runOnce_chain p w Hd)
    as (t & h & x & w1 & w2 & w3 & _ & _ & _ & Hr & Bx & Bh & Bt & k & ->).
  exists x, k. split; [exact Hr | lia].
Qed.

(** The loop of [runAll], from any accumulator: it appends one outcome per
    iteration, each the result of the next [runOnce] call. *)
Lemma runAll_loop p k acc w :
  DiceNumber p <= max_int ->
  exists outs j,
    for_loop k (fun allResults => r <- runOnce p ;; ret (allResults ++ [r]))
      acc w
    = Ok (acc ++ outs) (skip j w) /\
    length outs = k /\
    trials p w outs (skip j w) /\
    Forall (fun x => 0 <= x <= Z.max 0 (DiceNumber p)) outs.
Proof.
  intros Hd. revert acc w; induction k as [|k IH]; intros acc w.
  - exists [], 0%nat. simpl. unfold ret. rewrite skip_0, app_nil_r.
    repeat split; constructor.
  - destruct (runOnce_total p w Hd) as (x & j1 & Hx & Bx).
    destruct (IH (acc ++ [x]) (skip j1 w)) as (outs & j2 & Hl & Hn & Ht & Hb).
    exists (x :: outs), (j1 + j2)%nat.
    rewrite skip_skip in Hl, Ht.
    split; [|split; [|split]].
    + simpl. unfold bind at 1. unfold bind at 1. rewrite Hx.
      unfold ret at 1. rewrite Hl, <- app_assoc. reflexivity.
    + simpl. now rewrite Hn.
    + econstructor; eassumption.
    + constructor; assumption.
Qed.

Lemma runAll_spec p w :
  DiceNumber p <= max_int ->
  exists outs j,
    runAll p w = Ok outs (skip j w) /\
    length outs = Z.to_nat (RunNumber p) /\
    trials p w outs (skip j w) /\
    Forall (fun x => 0 <= x <= Z.max 0 (DiceNumber p)) outs.
Proof.
  intros Hd.
  destruct (runAll_loop p (Z.to_nat (RunNumber p)) [] w Hd)
    as (outs & j & H & Hn & Ht & Hb).
  exists outs, j. repeat split; assumption.
Qed.

(** C2: with [RunNumber = N >= 1] and [DiceNumber = d >= 1] (an [int]),
    from every state of the generator [runAll] returns exactly [N]
    outcomes, the [i]-th being what the [i]-th call of [runOnce] returns,
    calls being made one after the other; every outcome is between 0 and
    [d], because in every trial the touches are at most [d], the hurts at
    most the touches, and the hurts left after the saves at most the
    hurts. *)
Theorem runAll_outcomes p N d w :
  RunNumber p = N -> 1 <= N ->
  DiceNumber p = d -> 1 <= d -> d <= max_int ->
  (exists outs w',
     runAll p w = Ok outs w' /\
     Z.of_nat (length outs) = N /\
     trials p w outs w' /\
     Forall (fun x => 0 <= x <= d) outs) /\
  (forall w0, exists t h x w1 w2 w3,
     getNumberOfTouches p d w0 = Ok t w1 /\
     getNumberOfHurts p t w1 = Ok h w2 /\
     getNumberOfHurtsAfterSave p h w2 = Ok x w3 /\
     runOnce p w0 = Ok x w3 /\
     0 <= x <= h /\ h <= t /\ t <= d).
Proof.
  intros HN H1 Hd H2 H3. split.
  - destruct (runAll_spec p w ltac:(lia)) as (outs & j & H & Hn & Ht & Hb).
    exists outs, (skip j w). repeat split; try assumption.
    + rewrite Hn. lia.
    + eapply Forall_impl; [|exact Hb]. simpl. intros x Hx. lia.
  - intros w0.
    destruct (runOnce_chain p w0 ltac:(lia))
      as (t & h & x & w1 & w2 & w3 & Ht & Hh & Hx & Hr & Bx & Bh & Bt & _).
    exists t, h, x, w1, w2, w3. rewrite <- Hd.
    repeat split; try assumption; lia.
Qed.

Lemma runAll_outcomes_witness :
  let p := {| DiceNumber := 4; TouchDifficulty := 4; HurtDifficulty := 3;
              ArmorSave := 5; InvuSave := 6; RunNumber := 3 |} in
  (RunNumber p = 3 /\ 1 <= 3 /\ DiceNumber p = 4 /\ 1 <= 4 /\ 4 <= max_int) /\
  exists outs w',
    runAll p (constant_world 2 p) = Ok outs w' /\
    Z.of_nat (length outs) = 3 /\
    trials p (constant_world 2 p) outs w' /\
    Forall (fun x => 0 <= x <= 4) outs.
Proof.
  intros p.
  assert (H1 : 1 <= 3) by lia.
  assert (H2 : 1 <= 4) by lia.
  assert (H3 : 4 <= max_int) by (unfold max_int; lia).
  split; [repeat split; assumption || reflexivity|].
  exact (proj1 (runAll_outcomes p 3 4 (constant_world 2 p)
                  eq_refl H1 eq_refl H2 H3)).
Defined.

(** C10: [runAll], with everything it calls, leaves the parameter set its
    caller holds as it was: the only part of the world a batch changes is
    how far the generator has been read.  A second [runAll] on the same
    parameters, from the world the first one leaves, is therefore a batch
    like the first: as many outcomes, each the result of one more
    [runOnce] call on the same parameters, within the same bounds. *)
Theorem runAll_frame w :
  DiceNumber (held w) <= max_int ->
  exists outs w',
    runAll (held w) w = Ok outs w' /\
    held w' = held w /\
    tape w' = tape w /\
    exists outs2 w'',
      runAll (held w') w' = Ok outs2 w'' /\
      held w'' = held w /\
      tape w'' = tape w /\
      length outs2 = length outs /\
      trials (held w) w' outs2 w'' /\
      Forall (fun x => 0 <= x <= Z.max 0 (DiceNumber (held w))) outs2.
Proof.
  intros Hd.
  destruct (runAll_spec (held w) w Hd) as (outs & j & H & Hn & _ & _).
  destruct (runAll_spec (held w) (skip j w) Hd)
    as (outs2 & j2 & H2 & Hn2 & Ht2 & Hb2).
  exists outs, (skip j w). repeat split; try assumption.
  exists outs2, (skip j2 (skip j w)). rewrite held_skip.
  repeat split; try assumption. congruence.
Qed.

Lemma runAll_frame_witness :
  DiceNumber (held (constant_world 3 sample_params)) <= max_int /\
  exists outs w',
    runAll sample_params (constant_world 3 sample_params) = Ok outs w' /\
    held w' = sample_params.
Proof.
  assert (Hd : DiceNumber (held (constant_world 3 sample_params)) <= max_int)
    by (simpl; unfold max_int; lia).
  split; [exact Hd|].
  destruct (runAll_frame (constant_world 3 sample_params) Hd)
    as (outs & w' & H & Hh & _).
  exists outs, w'. split; [exact H | exact Hh].
Defined.

(** ** Request decoding and validation *)

Lemma first_failure_nil name v ts :
  first_failure name v ts = [] <->
  forallb (fun t => tag_holds t v) ts = true.
Proof.
  induction ts as [|t ts IH]; simpl; [tauto|].
  destruct (tag_holds t v); simpl; [exact IH|].
  split; discriminate.
Qed.

Lemma app_nil_iff {A} (l l' : list A) :
  l ++ l' = [] <-> l = [] /\ l' = [].
Proof.
  split; [apply app_eq_nil | intros [-> ->]; reflexivity].
Qed.

(** What the tags of [requestBody] accept. *)
Lemma validate_Struct_passes body :
  validate_Struct body = [] <->
  1 <= Strength body /\ 1 <= Endurance body /\ 1 <= rqDiceNumber body /\
  2 <= rqTouchDifficulty body <= 6 /\
  0 <= rqArmorSave body <= 6 /\ 0 <= rqInvuSave body <= 6 /\
  1 <= rqRunNumber body <= 1000.
Proof.
  unfold validate_Struct, requestBody_tags. cbn [flat_map].
  rewrite !app_nil_r.
  rewrite !app_nil_iff.
  rewrite !first_failure_nil. cbn [forallb tag_holds].
  rewrite !andb_true_iff, !negb_true_iff, !Z.leb_le, !Z.eqb_neq.
  lia.
Qed.

(** C9: for every decoded body that passes validation,
    [getParamsFromRequest] returns no error and a parameter set whose
    [HurtDifficulty] is [getDifficulty] of the body's strength and
    endurance, the other five fields being the body's, unchanged. *)
Theorem getParamsFromRequest_fields body :
  validate_Struct body = [] ->
  exists p,
    getParamsFromRequest (Some body) = (p, None) /\
    HurtDifficulty p = getDifficulty (Strength body) (Endurance body) /\
    DiceNumber p = rqDiceNumber body /\
    TouchDifficulty p = rqTouchDifficulty body /\
    ArmorSave p = rqArmorSave body /\
    InvuSave p = rqInvuSave body /\
    RunNumber p = rqRunNumber body.
Proof.
  intros Hv. unfold getParamsFromRequest. rewrite Hv.
  eexists. split; [reflexivity|]. simpl. repeat split.
Qed.

Lemma getParamsFromRequest_fields_witness :
  let body := {| Strength := 5; Endurance := 6; rqDiceNumber := 10;
                 rqTouchDifficulty := 4; rqArmorSave := 0; rqInvuSave := 0;
                 rqRunNumber := 1 |} in
  validate_Struct body = [] /\
  getParamsFromRequest (Some body)
  = ({| DiceNumber := 10; TouchDifficulty := 4; HurtDifficulty := 5;
        ArmorSave := 0; InvuSave := 0; RunNumber := 1 |}, None).
Proof.
  intros body.
  assert (Hv : validate_Struct body = []) by reflexivity.
  split; [exact Hv|].
  destruct (getParamsFromRequest_fields body Hv) as (p & Hp & _).
  rewrite Hp. vm_compute in Hp. congruence.
Defined.

(** A request that validation accepts and whose derived difficulty is off
    the table: strength 1 against endurance 2^62. *)
Lemma validated_request_overflow :
  let body := {| Strength := 1; Endurance := 4611686018427387904;
                 rqDiceNumber := 10; rqTouchDifficulty := 4;
                 rqArmorSave := 0; rqInvuSave := 0; rqRunNumber := 1 |} in
  validate_Struct body = [] /\
  HurtDifficulty (fst (getParamsFromRequest (Some body))) = 2.
Proof. split; vm_compute; reflexivity. Qed.

Lemma getDifficulty_table_witness :
  (1 <= 5 /\ 5 <= max_int /\ 1 <= 6 /\ 2 * 6 <= max_int) /\
  getDifficulty 5 6 = 5.
Proof.
  assert (H1 : 1 <= 5) by lia.
  assert (H2 : 5 <= max_int) by (unfold max_int; lia).
  assert (H3 : 1 <= 6) by lia.
  assert (H4 : 2 * 6 <= max_int) by (unfold max_int; lia).
  split; [repeat split; assumption|].
  destruct (getDifficulty_table 5 6 H1 H2 H3 H4) as (_ & _ & _ & T & _).
  apply T; lia.
Defined.

(** ** Concrete runs *)

(** Two trials of three dice, read off a scripted generator.  First trial:
    faces 2, 3, 5 count as 3, 4, 6, so two touches; faces 3, 1 count as 4,
    2, so one hurt; the armor roll 3 is below 4, so the wound passes.
    Second trial: three faces 1 count as 2, no touch, and nothing more is
    drawn. *)
Example runAll_scripted :
  let p := {| DiceNumber := 3; TouchDifficulty := 4; HurtDifficulty := 4;
              ArmorSave := 4; InvuSave := 0; RunNumber := 2 |} in
  let w := scripted_world [2; 3; 5; 3; 1; 3; 1; 1; 1] p in
  runAll p w = Ok [1; 0] (skip 9 w).
Proof. vm_compute. reflexivity. Qed.

(** The documented scenario with both saves disabled, every die showing
    face 5. *)
Example runAll_sample :
  runAll sample_params (constant_world 4 sample_params)
  = Ok [10] (skip 20 (constant_world 4 sample_params)).
Proof. vm_compute. reflexivity. Qed.

(** [rollDices] shifts every face by one: faces 1, 6, 3 come out as 2, 7,
    4. *)
Example rollDices_scripted :
  rollDices 3 6 (scripted_world [1; 6; 3] sample_params)
  = Ok [2; 7; 4] (skip 3 (scripted_world [1; 6; 3] sample_params)).
Proof. vm_compute. reflexivity. Qed.

(** A die without sides makes [rand.IntN] panic; no caller asks for one. *)
Example rollDice_no_sides w : rollDice 0 w = Panic.
Proof. reflexivity. Qed.

(** Validation reports the first offending field, with its first failing
    tag. *)
Example getParamsFromRequest_rejects :
  getParamsFromRequest
    (Some {| Strength := 5; Endurance := 6; rqDiceNumber := 10;
             rqTouchDifficulty := 7; rqArmorSave := 0; rqInvuSave := 0;
             rqRunNumber := 0 |})
  = (zero_params, Some (FieldMax "TouchDifficulty" 6 7)).
Proof. reflexivity. Qed.

Example getParamsFromRequest_bad_json :
  getParamsFromRequest None = (zero_params, Some InvalidJSON).
Proof. reflexivity. Qed.

(** * Further properties of the code *)

(** ** Where the dice can panic *)

Lemma rollDice_ok sides w :
  1 <= sides -> exists r, rollDice sides w = Ok r (skip 1 w).
Proof.
  intros H. unfold rollDice, bind, ret. rewrite IntN_spec by exact H.
  now eexists.
Qed.

Lemma rollDice_panics sides w : sides <= 0 -> rollDice sides w = Panic.
Proof.
  intros H. unfold rollDice, bind, IntN.
  destruct (sides <=? 0) eqn:E; [reflexivity|].
  apply Z.leb_gt in E. lia.
Qed.

Lemma for_loop_never_panics {A} (body : A -> M A) :
  (forall a w, exists a' w', body a w = Ok a' w') ->
  forall k acc w, exists out w', for_loop k body acc w = Ok out w'.
Proof.
  intros Hbody. induction k as [|k IH]; intros acc w; simpl.
  - unfold ret. now eexists; eexists.
  - unfold bind. destruct (Hbody acc w) as (a' & w' & ->). apply IH.
Qed.

(** X1: the only panic of the dice is [rand.IntN] on a die without sides:
    [rollDice sides] panics exactly when [sides <= 0], and
    [rollDices count sides] exactly when moreover at least one die is
    asked for; with [count <= 0] nothing is rolled and the result is the
    empty slice, whatever [sides]. *)
Theorem dice_panic_iff count sides w :
  (rollDice sides w = Panic <-> sides <= 0) /\
  (rollDices count sides w = Panic <-> 1 <= count /\ sides <= 0) /\
  (count <= 0 -> rollDices count sides w = Ok [] w).
Proof.
  split; [|split].
  - split.
    + intros H. destruct (Z_le_gt_dec sides 0) as [L|G]; [exact L|].
      destruct (rollDice_ok sides w ltac:(lia)) as (r & E). congruence.
    + apply rollDice_panics.
  - unfold rollDices. split.
    + intros H. destruct (Z_le_gt_dec count 0) as [Lc|Gc].
      * replace (Z.to_nat count) with 0%nat in H by lia. discriminate.
      * split; [lia|].
        destruct (Z_le_gt_dec sides 0) as [L|G]; [exact L|]. exfalso.
        assert (Hbody : forall (a : list Z) v, exists a' w',
                   (r <- rollDice sides ;; ret (a ++ [add r 1])) v
                   = Ok a' w').
        { intros a v. unfold bind.
          destruct (rollDice_ok sides v ltac:(lia)) as (r & ->).
          unfold ret. now eexists; eexists. }
        destruct (for_loop_never_panics _ Hbody (Z.to_nat count) [] w)
          as (out & w' & E).
        pose proof (eq_trans (eq_sym H) E) as C. discriminate C.
    + intros [Hc Hs].
      destruct (Z.to_nat count) as [|k] eqn:Ek; [lia|].
      simpl. unfold bind at 1. unfold bind at 1.
      now rewrite rollDice_panics.
  - intros Hc. unfold rollDices.
    replace (Z.to_nat count) with 0%nat by lia. reflexivity.
Qed.

(** ** What the stage filters really compare *)

Lemma tally_map keep (g : Z -> Z) l :
  tally keep (map g l) = tally (fun x => keep (g x)) l.
Proof.
  induction l as [|x l IH]; [reflexivity|].
  simpl map. rewrite !tally_cons, IH. reflexivity.
Qed.

Lemma tally_ext keep1 keep2 l :
  (forall x, keep1 x = keep2 x) -> tally keep1 l = tally keep2 l.
Proof.
  intros H. induction l as [|x l IH]; [reflexivity|].
  rewrite !tally_cons, IH, H. reflexivity.
Qed.

Lemma tally_mono keep1 keep2 l :
  (forall x, keep1 x = true -> keep2 x = true) ->
  tally keep1 l <= tally keep2 l.
Proof.
  intros H. induction l as [|x l IH]; [unfold tally; simpl; lia|].
  rewrite !tally_cons. specialize (H x).
  destruct (keep1 x), (keep2 x); lia.
Qed.

Lemma tally_none keep l :
  Forall (fun x => keep x = false) l -> tally keep l = 0.
Proof.
  intros H. induction H as [|x l Hx _ IH]; [reflexivity|].
  rewrite tally_cons, Hx, IH. reflexivity.
Qed.

Lemma tally_shifted t k w :
  tally (fun r => r >=? t) (shifted_faces k w)
  = tally (fun f => f >=? t - 1) (faces k 6 w).
Proof.
  unfold shifted_faces. rewrite tally_map. apply tally_ext.
  intros x. rewrite !Z.geb_leb.
  destruct (t <=? x + 1) eqn:E1, (t - 1 <=? x) eqn:E2; try reflexivity;
    [apply Z.leb_le in E1; apply Z.leb_gt in E2
    |apply Z.leb_gt in E1; apply Z.leb_le in E2]; lia.
Qed.

(** X2: because [rollDices] adds 1 to every face, a die counts as a touch
    exactly when its face is at least [TouchDifficulty - 1], and as a hurt
    exactly when its face is at least [HurtDifficulty - 1]: the stage
    returns the number of such faces among the [n] it draws. *)
Theorem stage_filters_effective_threshold p n w :
  n <= max_int ->
  getNumberOfTouches p n w
  = Ok (tally (fun f => f >=? TouchDifficulty p - 1)
              (faces (Z.to_nat n) 6 w))
       (skip (Z.to_nat n) w) /\
  getNumberOfHurts p n w
  = Ok (tally (fun f => f >=? HurtDifficulty p - 1)
              (faces (Z.to_nat n) 6 w))
       (skip (Z.to_nat n) w).
Proof.
  intros H. split.
  - rewrite getNumberOfTouches_spec by exact H. now rewrite tally_shifted.
  - rewrite getNumberOfHurts_spec by exact H. now rewrite tally_shifted.
Qed.

Lemma stage_filters_effective_threshold_witness :
  let p := {| DiceNumber := 4; TouchDifficulty := 6; HurtDifficulty := 3;
              ArmorSave := 0; InvuSave := 0; RunNumber := 1 |} in
  let w := scripted_world [4; 5; 6; 1] p in
  4 <= max_int /\
  getNumberOfTouches p 4 w = Ok 2 (skip 4 w) /\
  getNumberOfHurts p 4 w = Ok 3 (skip 4 w).
Proof.
  intros p w.
  assert (H : 4 <= max_int) by (unfold max_int; lia).
  split; [exact H|].
  destruct (stage_filters_effective_threshold p 4 w H) as [Ht Hh].
  split; [rewrite Ht | rewrite Hh]; reflexivity.
Defined.

(** X3: on the same draws, a higher difficulty never lets more dice
    through: the touch count is antitone in [TouchDifficulty] and the hurt
    count in [HurtDifficulty]. *)
Theorem harder_difficulty_fewer_passes p q n w :
  n <= max_int ->
  (TouchDifficulty p <= TouchDifficulty q ->
   exists tp tq,
     getNumberOfTouches p n w = Ok tp (skip (Z.to_nat n) w) /\
     getNumberOfTouches q n w = Ok tq (skip (Z.to_nat n) w) /\
     tq <= tp) /\
  (HurtDifficulty p <= HurtDifficulty q ->
   exists hp hq,
     getNumberOfHurts p n w = Ok hp (skip (Z.to_nat n) w) /\
     getNumberOfHurts q n w = Ok hq (skip (Z.to_nat n) w) /\
     hq <= hp).
Proof.
  intros H. split; intros Hle.
  - do 2 eexists. rewrite !getNumberOfTouches_spec by exact H.
    split; [reflexivity|]. split; [reflexivity|].
    apply tally_mono. intros x. rewrite !Z.geb_leb, !Z.leb_le. lia.
  - do 2 eexists. rewrite !getNumberOfHurts_spec by exact H.
    split; [reflexivity|]. split; [reflexivity|].
    apply tally_mono. intros x. rewrite !Z.geb_leb, !Z.leb_le. lia.
Qed.

Lemma harder_difficulty_fewer_passes_witness :
  let p := {| DiceNumber := 4; TouchDifficulty := 3; HurtDifficulty := 3;
              ArmorSave := 0; InvuSave := 0; RunNumber := 1 |} in
  let q := {| DiceNumber := 4; TouchDifficulty := 6; HurtDifficulty := 5;
              ArmorSave := 0; InvuSave := 0; RunNumber := 1 |} in
  let w := scripted_world [4; 5; 6; 1] p in
  (4 <= max_int /\ TouchDifficulty p <= TouchDifficulty q) /\
  exists tp tq,
    getNumberOfTouches p 4 w = Ok tp (skip (Z.to_nat 4) w) /\
    getNumberOfTouches q 4 w = Ok tq (skip (Z.to_nat 4) w) /\
    tq <= tp.
Proof.
  intros p q w.
  assert (H : 4 <= max_int) by (unfold max_int; lia).
  assert (Hle : TouchDifficulty p <= TouchDifficulty q) by (simpl; lia).
  split; [split; assumption|].
  exact (proj1 (harder_difficulty_fewer_passes p q 4 w H) Hle).
Defined.

(** ** Edges of a trial *)

Lemma getNumberOfHurtsAfterSave_0 p w :
  getNumberOfHurtsAfterSave p 0 w = Ok 0 w.
Proof.
  unfold getNumberOfHurtsAfterSave.
  destruct (ArmorSave p >=? 1), (InvuSave p >=? 1); reflexivity.
Qed.

(** X4: a trial in which no die touches is over after the touch roll: the
    hurt stage and both save stages draw nothing, the outcome is 0 and the
    generator is where the touch stage left it.  Likewise the save stages
    draw nothing when no wound comes in. *)
Theorem no_touch_ends_trial p w w1 :
  getNumberOfTouches p (DiceNumber p) w = Ok 0 w1 ->
  runOnce p w = Ok 0 w1 /\
  (forall v, getNumberOfHurtsAfterSave p 0 v = Ok 0 v).
Proof.
  intros H. split; [|apply getNumberOfHurtsAfterSave_0].
  unfold runOnce. unfold bind at 1. rewrite H.
  unfold bind at 1. change (getNumberOfHurts p 0 w1) with (Ok 0 w1).
  cbv beta iota. unfold bind. rewrite getNumberOfHurtsAfterSave_0.
  reflexivity.
Qed.

Lemma no_touch_ends_trial_witness :
  let p := {| DiceNumber := 3; TouchDifficulty := 4; HurtDifficulty := 4;
              ArmorSave := 4; InvuSave := 5; RunNumber := 1 |} in
  let w := constant_world 0 p in
  getNumberOfTouches p (DiceNumber p) w = Ok 0 (skip 3 w) /\
  runOnce p w = Ok 0 (skip 3 w).
Proof.
  intros p w.
  assert (H : getNumberOfTouches p (DiceNumber p) w = Ok 0 (skip 3 w))
    by reflexivity.
  split; [exact H|].
  exact (proj1 (no_touch_ends_trial p w (skip 3 w) H)).
Defined.

Lemma save_stage_1 n w : save_stage 1 n w = (0, skip (Z.to_nat n) w).
Proof.
  unfold save_stage. change (1 >=? 1) with true. cbv iota. f_equal.
  apply tally_none.
  eapply Forall_impl; [|apply (faces_bounds (Z.to_nat n) 6 w); lia].
  simpl. intros x Hx. apply Z.ltb_ge. lia.
Qed.

Lemma save_stage_none_in t w : fst (save_stage t 0 w) = 0.
Proof. unfold save_stage. destruct (t >=? 1); reflexivity. Qed.

(** X5: a save threshold of 1 absorbs every wound, since no roll is
    strictly below 1: whenever [ArmorSave] or [InvuSave] is 1 the function
    returns 0, whereas a threshold of 0 lets every wound through. *)
Theorem save_of_1_absorbs_all p n w :
  0 <= n -> n <= max_int ->
  ArmorSave p = 1 \/ InvuSave p = 1 ->
  exists w', getNumberOfHurtsAfterSave p n w = Ok 0 w'.
Proof.
  intros H0 H1 Hsave.
  rewrite getNumberOfHurtsAfterSave_spec by lia.
  destruct Hsave as [Ha | Hi].
  - rewrite Ha, save_stage_1.
    pose proof (save_stage_none_in (InvuSave p) (skip (Z.to_nat n) w)) as E.
    destruct (save_stage (InvuSave p) 0 (skip (Z.to_nat n) w)) as [b w2].
    simpl in E. subst b. now eexists.
  - destruct (save_stage (ArmorSave p) n w) as [a w1].
    rewrite Hi, save_stage_1. now eexists.
Qed.

Lemma save_of_1_absorbs_all_witness :
  let p := {| DiceNumber := 3; TouchDifficulty := 4; HurtDifficulty := 4;
              ArmorSave := 1; InvuSave := 0; RunNumber := 1 |} in
  (0 <= 3 /\ 3 <= max_int /\ (ArmorSave p = 1 \/ InvuSave p = 1)) /\
  exists w', getNumberOfHurtsAfterSave p 3 (constant_world 0 p) = Ok 0 w'.
Proof.
  intros p.
  assert (H0 : 0 <= 3) by lia.
  assert (H1 : 3 <= max_int) by (unfold max_int; lia).
  assert (Hs : ArmorSave p = 1 \/ InvuSave p = 1) by (left; reflexivity).
  split; [repeat split; assumption|].
  exact (save_of_1_absorbs_all p 3 (constant_world 0 p) H0 H1 Hs).
Defined.

(** ** Shape of the difficulty table *)

Lemma getDifficulty_exact strength endurance :
  1 <= strength -> 1 <= endurance ->
  2 * strength <= max_int -> 2 * endurance <= max_int ->
  getDifficulty strength endurance
  = if strength >=? 2 * endurance then 2
    else if strength >? endurance then 3
    else if 2 * strength <=? endurance then 6
    else if strength <? endurance then 5
    else 4.
Proof.
  intros. unfold getDifficulty. now rewrite !double_small by lia.
Qed.

Ltac table_cases :=
  repeat match goal with
         | |- context [?a >=? ?b] =>
             rewrite (Z.geb_leb a b)
         | |- context [?a >? ?b] =>
             rewrite (Z.gtb_ltb a b)
         end;
  repeat match goal with
         | |- context [?a <=? ?b] =>
             let E := fresh "E" in
             destruct (a <=? b) eqn:E;
             [apply Z.leb_le in E | apply Z.leb_gt in E]
         | |- context [?a <? ?b] =>
             let E := fresh "E" in
             destruct (a <? b) eqn:E;
             [apply Z.ltb_lt in E | apply Z.ltb_ge in E]
         end.

(** X6: the table is symmetric about 4: swapping attacker and defender
    turns a rating [r] into [8 - r] (2 and 6, 3 and 5 and 4 with itself),
    as long as neither doubling overflows. *)
Theorem getDifficulty_symmetric strength endurance :
  1 <= strength -> 1 <= endurance ->
  2 * strength <= max_int -> 2 * endurance <= max_int ->
  getDifficulty strength endurance + getDifficulty endurance strength = 8.
Proof.
  intros Hs He Hs2 He2.
  rewrite !getDifficulty_exact by assumption.
  table_cases; lia.
Qed.

Lemma getDifficulty_symmetric_witness :
  (1 <= 7 /\ 1 <= 3 /\ 2 * 7 <= max_int /\ 2 * 3 <= max_int) /\
  getDifficulty 7 3 + getDifficulty 3 7 = 8.
Proof.
  assert (H1 : 1 <= 7) by lia.
  assert (H2 : 1 <= 3) by lia.
  assert (H3 : 2 * 7 <= max_int) by (unfold max_int; lia).
  assert (H4 : 2 * 3 <= max_int) by (unfold max_int; lia).
  split; [repeat split; assumption|].
  exact (getDifficulty_symmetric 7 3 H1 H2 H3 H4).
Defined.

(** X7: the rating is monotone: more strength or less endurance never
    makes wounding harder, as long as no doubling overflows. *)
Theorem getDifficulty_monotone s s' e e' :
  1 <= s -> s <= s' -> 2 * s' <= max_int ->
  1 <= e' -> e' <= e -> 2 * e <= max_int ->
  getDifficulty s' e' <= getDifficulty s e.
Proof.
  intros H1 H2 H3 H4 H5 H6.
  rewrite !getDifficulty_exact by lia.
  table_cases; lia.
Qed.

Lemma getDifficulty_monotone_witness :
  (1 <= 4 /\ 4 <= 9 /\ 2 * 9 <= max_int /\
   1 <= 5 /\ 5 <= 8 /\ 2 * 8 <= max_int) /\
  getDifficulty 9 5 <= getDifficulty 4 8.
Proof.
  assert (H1 : 1 <= 4) by lia.
  assert (H2 : 4 <= 9) by lia.
  assert (H3 : 2 * 9 <= max_int) by (unfold max_int; lia).
  assert (H4 : 1 <= 5) by lia.
  assert (H5 : 5 <= 8) by lia.
  assert (H6 : 2 * 8 <= max_int) by (unfold max_int; lia).
  split; [repeat split; assumption|].
  exact (getDifficulty_monotone 4 9 8 5 H1 H2 H3 H4 H5 H6).
Defined.

(** ** What validation accepts and what it reports *)

Lemma getDifficulty_bounds strength endurance :
  2 <= getDifficulty strength endurance <= 6.
Proof.
  pose proof (getDifficulty_rating strength endurance) as H.
  simpl in H. lia.
Qed.

(** X8: [getParamsFromRequest] returns no error exactly for a body that
    decoded and whose fields are in the ranges of the tags: strength,
    endurance and dice number at least 1, touch difficulty in [2, 6], both
    saves in [0, 6], run number in [1, 1000].  A body that did not decode
    is always an error. *)
Theorem validation_accepts_exactly decoded :
  snd (getParamsFromRequest decoded) = None <->
  exists body, decoded = Some body /\ in_ranges body.
Proof.
  unfold in_ranges. destruct decoded as [body|]; simpl.
  - destruct (validate_Struct body) as [|fe errs] eqn:E; simpl.
    + split; [intros _|reflexivity].
      exists body. split; [reflexivity|].
      now apply validate_Struct_passes.
    + split; [discriminate|].
      intros (b & Hb & Hr). injection Hb as <-.
      apply validate_Struct_passes in Hr. congruence.
  - split; [discriminate|]. intros (b & Hb & _). discriminate.
Qed.

(** X9: a parameter set that comes out of [getParamsFromRequest] without
    an error is well formed: at least one die, both difficulties in
    [2, 6] (the derived one also when a doubling overflowed), both saves
    in [0, 6], between 1 and 1000 runs. *)
Theorem accepted_params_well_formed decoded p :
  getParamsFromRequest decoded = (p, None) ->
  1 <= DiceNumber p /\
  2 <= TouchDifficulty p <= 6 /\
  2 <= HurtDifficulty p <= 6 /\
  0 <= ArmorSave p <= 6 /\
  0 <= InvuSave p <= 6 /\
  1 <= RunNumber p <= 1000.
Proof.
  unfold getParamsFromRequest. destruct decoded as [body|]; [|discriminate].
  destruct (validate_Struct body) as [|fe errs] eqn:E; [|discriminate].
  apply validate_Struct_passes in E.
  intros [= <-]. simpl.
  pose proof (getDifficulty_bounds (Strength body) (Endurance body)).
  lia.
Qed.

Lemma accepted_params_well_formed_witness :
  let body := {| Strength := 1; Endurance := 4611686018427387904;
                 rqDiceNumber := 10; rqTouchDifficulty := 4;
                 rqArmorSave := 0; rqInvuSave := 6; rqRunNumber := 1000 |} in
  exists p,
    getParamsFromRequest (Some body) = (p, None) /\
    2 <= HurtDifficulty p <= 6.
Proof.
  intros body. eexists. split; [reflexivity|].
  eapply (accepted_params_well_formed (Some body)). reflexivity.
Defined.

Lemma first_failure_cons name v ts fe rest :
  first_failure name v ts = fe :: rest ->
  rest = [] /\
  exists tpre t tpost,
    ts = tpre ++ t :: tpost /\
    forallb (fun t' => tag_holds t' v) tpre = true /\
    tag_holds t v = false /\
    fe = {| feField := name; feTag := t; feValue := v |}.
Proof.
  induction ts as [|t ts IH]; simpl; [discriminate|].
  destruct (tag_holds t v) eqn:E.
  - intros H. destruct (IH H) as (Hr & tpre & t0 & tpost & -> & Hp & Hf & ->).
    split; [exact Hr|].
    exists (t :: tpre), t0, tpost. simpl. rewrite E. now repeat split.
  - intros [= <- <-]. split; [reflexivity|].
    exists [], t, ts. now repeat split.
Qed.

Lemma flat_map_head {A B} (f : A -> list B) l e rest :
  flat_map f l = e :: rest ->
  exists pre x post rest',
    l = pre ++ x :: post /\
    Forall (fun y => f y = []) pre /\
    f x = e :: rest'.
Proof.
  induction l as [|x l IH]; simpl; [discriminate|].
  destruct (f x) as [|e' r'] eqn:E; simpl.
  - intros H. destruct (IH H) as (pre & x0 & post & rest' & -> & Hp & Hx).
    exists (x :: pre), x0, post, rest'. repeat split; auto.
  - intros [= <- <-]. exists [], x, l, r'. repeat split; auto.
Qed.

(** X10: when a decoded body is rejected, no parameters are returned and
    the error is about the first field, in declaration order, that breaks
    one of its tags, and about the first tag of that field that it breaks:
    every field before it satisfies all its tags, every tag before it in
    the field holds, and the reported tag does not hold of the reported
    value, which is the field's.  The catch-all message is never used. *)
Theorem rejection_reports_first_violation body p e :
  getParamsFromRequest (Some body) = (p, Some e) ->
  p = zero_params /\
  exists pre name get ts post tpre t tpost,
    requestBody_tags = pre ++ (name, get, ts) :: post /\
    Forall (fun '(_, g, ts') =>
              forallb (fun t' => tag_holds t' (g body)) ts' = true) pre /\
    ts = tpre ++ t :: tpost /\
    forallb (fun t' => tag_holds t' (get body)) tpre = true /\
    tag_holds t (get body) = false /\
    e = match t with
        | tag_required => FieldRequired name
        | tag_min k => FieldMin name k (get body)
        | tag_max k => FieldMax name k (get body)
        end.
Proof.
  unfold getParamsFromRequest.
  destruct (validate_Struct body) as [|fe errs] eqn:E; [discriminate|].
  intros [= <- <-]. split; [reflexivity|].
  unfold validate_Struct in E.
  apply flat_map_head in E.
  destruct E as (pre & [[name get] ts] & post & rest' & Htbl & Hpre & Hx).
  apply first_failure_cons in Hx.
  destruct Hx as (_ & tpre & t & tpost & -> & Htpre & Hf & ->).
  exists pre, name, get, (tpre ++ t :: tpost), post, tpre, t, tpost.
  repeat split; try assumption.
  eapply Forall_impl; [|exact Hpre].
  intros [[n g] ts']. apply first_failure_nil.
Qed.

Lemma rejection_reports_first_violation_witness :
  let body := {| Strength := 5; Endurance := 6; rqDiceNumber := 10;
                 rqTouchDifficulty := 7; rqArmorSave := 0; rqInvuSave := 0;
                 rqRunNumber := 0 |} in
  getParamsFromRequest (Some body)
  = (zero_params, Some (FieldMax "TouchDifficulty" 6 7)) /\
  fst (getParamsFromRequest (Some body)) = zero_params.
Proof.
  intros body.
  assert (H : getParamsFromRequest (Some body)
              = (zero_params, Some (FieldMax "TouchDifficulty" 6 7)))
    by reflexivity.
  split; [exact H|].
  rewrite H. simpl.
  exact (proj1 (rejection_reports_first_violation body _ _ H)).
Defined.

(** ** How much of the generator a batch reads *)

Lemma save_stage_draws t n w :
  0 <= n ->
  0 <= fst (save_stage t n w) <= n /\
  exists k, snd (save_stage t n w) = skip k w /\ (k <= Z.to_nat n)%nat.
Proof.
  intros H. unfold save_stage. destruct (t >=? 1); simpl.
  - pose proof (tally_bounds (fun r => r <? t) (faces (Z.to_nat n) 6 w)) as B.
    rewrite length_faces in B. split; [lia|].
    exists (Z.to_nat n). split; [reflexivity | lia].
  - split; [lia|]. exists 0%nat. rewrite skip_0. split; [reflexivity | lia].
Qed.

Lemma getNumberOfHurtsAfterSave_draws p n w :
  0 <= n <= max_int ->
  exists x k,
    getNumberOfHurtsAfterSave p n w = Ok x (skip k w) /\
    0 <= x <= n /\ (k <= 2 * Z.to_nat n)%nat.
Proof.
  intros H. rewrite getNumberOfHurtsAfterSave_spec by exact H.
  destruct (save_stage_draws (ArmorSave p) n w ltac:(lia))
    as (Ba & ka & Ea & Ka).
  destruct (save_stage (ArmorSave p) n w) as [a w1]. simpl in Ba, Ea.
  destruct (save_stage_draws (InvuSave p) a w1 ltac:(lia))
    as (Bb & kb & Eb & Kb).
  destruct (save_stage (InvuSave p) a w1) as [b w2]. simpl in Bb, Eb.
  exists b, (ka + kb)%nat. subst w2 w1. rewrite skip_skip.
  split; [reflexivity|]. split; lia.
Qed.

Lemma runOnce_draws p w :
  DiceNumber p <= max_int ->
  exists x k,
    runOnce p w = Ok x (skip k w) /\
    (Z.to_nat (DiceNumber p) <= k <= 4 * Z.to_nat (DiceNumber p))%nat.
Proof.
  intros Hd. pose proof max_int_pos as Hpos.
  pose proof (tally_stage_bounds (fun r => r >=? TouchDifficulty p)
                (DiceNumber p) w) as Bt.
  set (t := tally _ _) in Bt.
  set (w1 := skip (Z.to_nat (DiceNumber p)) w).
  pose proof (tally_stage_bounds (fun r => r >=? HurtDifficulty p) t w1) as Bh.
  set (h := tally _ _) in Bh.
  set (w2 := skip (Z.to_nat t) w1).
  destruct (getNumberOfHurtsAfterSave_draws p h w2 ltac:(lia))
    as (x & k & Hx & Bx & Kx).
  exists x, (Z.to_nat (DiceNumber p) + Z.to_nat t + k)%nat. split.
  - unfold runOnce, bind.
    rewrite getNumberOfTouches_spec by exact Hd. fold t w1.
    rewrite getNumberOfHurts_spec by lia. fold h w2.
    rewrite Hx. unfold ret. f_equal.
    subst w2 w1. rewrite !skip_skip. f_equal. lia.
  - lia.
Qed.

Lemma runAll_loop_draws p k acc w :
  DiceNumber p <= max_int ->
  exists outs j,
    for_loop k (fun allResults => r <- runOnce p ;; ret (allResults ++ [r]))
      acc w
    = Ok outs (skip j w) /\
    (k * Z.to_nat (DiceNumber p) <= j <= k * (4 * Z.to_nat (DiceNumber p)))%nat.
Proof.
  intros Hd. revert acc w; induction k as [|k IH]; intros acc w.
  - exists acc, 0%nat. simpl. unfold ret. rewrite skip_0. split; [easy | lia].
  - destruct (runOnce_draws p w Hd) as (x & j1 & Hx & Bx).
    destruct (IH (acc ++ [x]) (skip j1 w)) as (outs & j2 & Hl & Bj).
    exists outs, (j1 + j2)%nat. rewrite skip_skip in Hl. split.
    + simpl. unfold bind at 1. unfold bind at 1. rewrite Hx.
      unfold ret at 1. exact Hl.
    + lia.
Qed.

(** X11: a batch reads the generator forward only, and by a bounded
    amount: every trial draws its [DiceNumber] touch dice and at most
    three times as many for the hurt roll and the two saves, so [runAll]
    leaves the generator between [N * d] and [4 * N * d] draws further,
    [N] being the number of runs and [d] the number of dice. *)
Theorem runAll_draws_bounded p w :
  0 <= RunNumber p -> 0 <= DiceNumber p -> DiceNumber p <= max_int ->
  exists outs j,
    runAll p w = Ok outs (skip j w) /\
    RunNumber p * DiceNumber p <= Z.of_nat j
      <= 4 * RunNumber p * DiceNumber p.
Proof.
  intros HN H0 Hd.
  destruct (runAll_loop_draws p (Z.to_nat (RunNumber p)) [] w Hd)
    as (outs & j & H & B).
  exists outs, j. split; [exact H|]. nia.
Qed.

Lemma runAll_draws_bounded_witness :
  let p := {| DiceNumber := 3; TouchDifficulty := 4; HurtDifficulty := 4;
              ArmorSave := 4; InvuSave := 0; RunNumber := 2 |} in
  (0 <= RunNumber p /\ 0 <= DiceNumber p /\ DiceNumber p <= max_int) /\
  exists outs j,
    runAll p (constant_world 3 p) = Ok outs (skip j (constant_world 3 p)) /\
    2 * 3 <= Z.of_nat j <= 4 * 2 * 3.
Proof.
  intros p.
  assert (HN : 0 <= RunNumber p) by (simpl; lia).
  assert (H0 : 0 <= DiceNumber p) by (simpl; lia).
  assert (Hd : DiceNumber p <= max_int) by (simpl; unfold max_int; lia).
  split; [repeat split; assumption|].
  exact (runAll_draws_bounded p (constant_world 3 p) HN H0 Hd).
Defined.

(** ** Batches compose *)

Lemma for_loop_plus {A} (body : A -> M A) a b acc w :
  for_loop (a + b) body acc w
  = bind (for_loop a body acc) (for_loop b body) w.
Proof.
  revert acc w; induction a as [|a IH]; intros acc w; [reflexivity|].
  simpl. unfold bind.
  destruct (body acc w) as [acc' w'|]; [exact (IH acc' w') | reflexivity].
Qed.

Lemma runAll_loop_acc p k acc w :
  for_loop k (fun allResults => r <- runOnce p ;; ret (allResults ++ [r]))
    acc w
  = match for_loop k
            (fun allResults => r <- runOnce p ;; ret (allResults ++ [r]))
            [] w with
    | Ok outs w' => Ok (acc ++ outs) w'
    | Panic => Panic
    end.
Proof.
  set (body := fun allResults => r <- runOnce p ;; ret (allResults ++ [r])).
  assert (Hbody : forall l v,
             body l v = match runOnce p v with
                        | Ok r v1 => Ok (l ++ [r]) v1
                        | Panic => Panic
                        end) by reflexivity.
  clearbody body.
  revert acc w; induction k as [|k IH]; intros acc w.
  - simpl. unfold ret. now rewrite app_nil_r.
  - simpl. unfold bind. rewrite !Hbody.
    destruct (runOnce p w) as [r w1|]; [|reflexivity].
    rewrite (IH (acc ++ [r])), (IH ([] ++ [r])).
    destruct (for_loop k body [] w1) as [outs w'|]; [|reflexivity].
    now rewrite <- app_assoc.
Qed.

(** X12: a batch of [a + b] runs is a batch of [a] runs followed, from
    the generator state it leaves, by a batch of [b] runs, the outcomes
    being appended in that order; [runOnce] does not look at the number of
    runs. *)
Theorem runAll_splits p a b w :
  0 <= a -> 0 <= b ->
  runAll (with_RunNumber (a + b) p) w
  = (outs1 <- runAll (with_RunNumber a p) ;;
     outs2 <- runAll (with_RunNumber b p) ;;
     ret (outs1 ++ outs2)) w.
Proof.
  intros Ha Hb. unfold runAll.
  change (RunNumber (with_RunNumber (a + b) p)) with (a + b).
  change (RunNumber (with_RunNumber a p)) with a.
  change (RunNumber (with_RunNumber b p)) with b.
  change (runOnce (with_RunNumber (a + b) p)) with (runOnce p).
  change (runOnce (with_RunNumber a p)) with (runOnce p).
  change (runOnce (with_RunNumber b p)) with (runOnce p).
  rewrite Z2Nat.inj_add by assumption.
  rewrite for_loop_plus.
  set (body := fun allResults => r <- runOnce p ;; ret (allResults ++ [r])).
  unfold bind.
  destruct (for_loop (Z.to_nat a) body [] w) as [outs1 w1|]; [|reflexivity].
  exact (runAll_loop_acc p (Z.to_nat b) outs1 w1).
Qed.

Lemma runAll_splits_witness :
  let p := {| DiceNumber := 3; TouchDifficulty := 4; HurtDifficulty := 4;
              ArmorSave := 4; InvuSave := 0; RunNumber := 2 |} in
  let w := scripted_world [2; 3; 5; 3; 1; 3; 1; 1; 1] p in
  (0 <= 1 /\ 0 <= 1) /\
  runAll (with_RunNumber (1 + 1) p) w = Ok ([1] ++ [0]) (skip 9 w).
Proof.
  intros p w.
  assert (Ha : 0 <= 1) by lia.
  split; [split; exact Ha|].
  rewrite (runAll_splits p 1 1 w Ha Ha). reflexivity.
Defined.

(** ** The easiest trial *)

Lemma runAll_loop_const p x c k acc w :
  (forall v, runOnce p v = Ok x (skip c v)) ->
  for_loop k (fun allResults => r <- runOnce p ;; ret (allResults ++ [r]))
    acc w
  = Ok (acc ++ repeat x k) (skip (k * c) w).
Proof.
  intros Hrun. revert acc w; induction k as [|k IH]; intros acc w.
  - simpl. unfold ret. now rewrite app_nil_r, skip_0.
  - simpl for_loop. unfold bind at 1. unfold bind at 1. rewrite Hrun.
    unfold ret at 1. rewrite IH, skip_skip, <- app_assoc. reflexivity.
Qed.

(** X13: with both difficulties at 2 or below, both saves disabled and
    a number of dice that is an [int], nothing is left to chance: every
    die touches and every touch hurts, so every trial returns the number
    of dice (0 for a negative number of dice, which rolls nothing) and a
    batch is that number repeated, after exactly two draws per die and
    per run. *)
Theorem easiest_batch_is_constant p w :
  TouchDifficulty p <= 2 -> HurtDifficulty p <= 2 ->
  ArmorSave p < 1 -> InvuSave p < 1 ->
  DiceNumber p <= max_int ->
  runAll p w
  = Ok (repeat (Z.max 0 (DiceNumber p)) (Z.to_nat (RunNumber p)))
       (skip (Z.to_nat (RunNumber p) * (2 * Z.to_nat (DiceNumber p))) w).
Proof.
  intros Ht Hh Ha Hi Hd. pose proof max_int_pos as Hpos.
  assert (Hall : forall t n v, t <= 2 ->
            tally (fun r => r >=? t) (shifted_faces (Z.to_nat n) v)
            = Z.max 0 n).
  { intros t n v Ht2. rewrite tally_all.
    - rewrite length_shifted_faces. lia.
    - eapply Forall_impl; [|apply shifted_faces_bounds].
      simpl. intros x Hx. rewrite Z.geb_leb. apply Z.leb_le. lia. }
  assert (Hrun : forall v,
            runOnce p v = Ok (Z.max 0 (DiceNumber p))
                             (skip (2 * Z.to_nat (DiceNumber p)) v)).
  { intros v. unfold runOnce, bind.
    rewrite getNumberOfTouches_spec, Hall by assumption.
    rewrite getNumberOfHurts_spec, Hall by (assumption || lia).
    rewrite getNumberOfHurtsAfterSave_spec by lia.
    unfold save_stage.
    replace (ArmorSave p >=? 1) with false
      by (symmetry; rewrite Z.geb_leb; apply Z.leb_gt; lia).
    replace (InvuSave p >=? 1) with false
      by (symmetry; rewrite Z.geb_leb; apply Z.leb_gt; lia).
    unfold ret. rewrite skip_skip. f_equal; [lia|]. f_equal. lia. }
  unfold runAll.
  now rewrite (runAll_loop_const p _ _ _ [] w Hrun).
Qed.

Lemma easiest_batch_is_constant_witness :
  let p := {| DiceNumber := 5; TouchDifficulty := 2; HurtDifficulty := 2;
              ArmorSave := 0; InvuSave := 0; RunNumber := 3 |} in
  (TouchDifficulty p <= 2 /\ HurtDifficulty p <= 2 /\
   ArmorSave p < 1 /\ InvuSave p < 1 /\ DiceNumber p <= max_int) /\
  runAll p (constant_world 0 p)
  = Ok [5; 5; 5] (skip 30 (constant_world 0 p)).
Proof.
  intros p.
  assert (Ht : TouchDifficulty p <= 2) by (simpl; lia).
  assert (Hh : HurtDifficulty p <= 2) by (simpl; lia).
  assert (Ha : ArmorSave p < 1) by (simpl; lia).
  assert (Hi : InvuSave p < 1) by (simpl; lia).
  assert (Hd : DiceNumber p <= max_int) by (simpl; unfold max_int; lia).
  split; [repeat split; assumption|].
  rewrite (easiest_batch_is_constant p (constant_world 0 p) Ht Hh Ha Hi Hd).
  reflexivity.
Defined.

(** ** The handler *)

Lemma Method_POST r :
  Method r = "POST"%string ->
  negb (String.eqb (Method r) "POST") = false.
Proof. intros ->. reflexivity. Qed.

Lemma Method_not_POST r :
  Method r <> "POST"%string ->
  negb (String.eqb (Method r) "POST") = true.
Proof.
  intros H. destruct (String.eqb (Method r) "POST") eqn:E; [|reflexivity].
  apply String.eqb_eq in E. contradiction.
Qed.

(** X14: a POST whose body decodes and is in the ranges of the tags is
    answered with status 200 and a page of exactly [runNumber] outcomes,
    each between 0 and [diceNumber]; the handler does not panic on it,
    and only reads the generator forward. *)
Theorem Handler_accepts r body w :
  Method r = "POST"%string ->
  decodedBody r = Some body ->
  in_ranges body ->
  rqDiceNumber body <= max_int ->
  exists outs j,
    Handler r w
    = Ok {| StatusCode := StatusOK; Written := ResultsPage outs |}
         (skip j w) /\
    Z.of_nat (length outs) = rqRunNumber body /\
    Forall (fun x => 0 <= x <= rqDiceNumber body) outs.
Proof.
  intros Hm Hb Hr Hd. unfold Handler.
  rewrite (Method_POST r Hm), Hb.
  pose proof (proj2 (validate_Struct_passes body) Hr) as Hv.
  unfold getParamsFromRequest. rewrite Hv.
  set (p := {| DiceNumber := rqDiceNumber body;
               TouchDifficulty := rqTouchDifficulty body;
               HurtDifficulty := _; ArmorSave := rqArmorSave body;
               InvuSave := rqInvuSave body;
               RunNumber := rqRunNumber body |}).
  destruct (runAll_spec p w Hd) as (outs & j & H & Hn & _ & Hbd).
  exists outs, j. unfold bind. rewrite H. unfold ret.
  unfold in_ranges in Hr. simpl in Hn, Hbd.
  split; [reflexivity|]. split; [lia|].
  eapply Forall_impl; [|exact Hbd]. simpl. intros x Hx. lia.
Qed.

Lemma Handler_accepts_witness :
  let body := {| Strength := 5; Endurance := 6; rqDiceNumber := 3;
                 rqTouchDifficulty := 4; rqArmorSave := 4; rqInvuSave := 0;
                 rqRunNumber := 2 |} in
  let r := {| Method := "POST"; decodedBody := Some body |} in
  (Method r = "POST"%string /\ decodedBody r = Some body /\
   in_ranges body /\ rqDiceNumber body <= max_int) /\
  exists outs j,
    Handler r (constant_world 3 sample_params)
    = Ok {| StatusCode := StatusOK; Written := ResultsPage outs |}
         (skip j (constant_world 3 sample_params)) /\
    Z.of_nat (length outs) = 2 /\
    Forall (fun x => 0 <= x <= 3) outs.
Proof.
  intros body r.
  assert (Hr : in_ranges body) by (unfold in_ranges; simpl; lia).
  assert (Hd : rqDiceNumber body <= max_int) by (simpl; unfold max_int; lia).
  split; [repeat split; try reflexivity; try assumption; apply Hr|].
  exact (Handler_accepts r body (constant_world 3 sample_params)
           eq_refl eq_refl Hr Hd).
Defined.

(** X15: the status of a response tells what happened, and a refusal
    costs nothing: 405 exactly for a method other than POST (the body is
    not even looked at), 400 exactly for a POST whose body did not decode
    or is out of range, 200 exactly for a POST with a decoded body in
    range; and unless the status is 200 no die has been rolled. *)
Theorem Handler_status r w resp w' :
  Handler r w = Ok resp w' ->
  (StatusCode resp = StatusMethodNotAllowed <-> Method r <> "POST"%string) /\
  (StatusCode resp = StatusBadRequest <->
   Method r = "POST"%string /\
   ~ exists body, decodedBody r = Some body /\ in_ranges body) /\
  (StatusCode resp = StatusOK <->
   Method r = "POST"%string /\
   exists body, decodedBody r = Some body /\ in_ranges body) /\
  (StatusCode resp <> StatusOK -> w' = w).
Proof.
  unfold Handler, StatusOK, StatusBadRequest, StatusMethodNotAllowed.
  assert (Hacc : forall p e,
             getParamsFromRequest (decodedBody r) = (p, e) ->
             (e = None <->
              exists body, decodedBody r = Some body /\ in_ranges body)).
  { intros p e. unfold getParamsFromRequest.
    destruct (decodedBody r) as [body|].
    - destruct (validate_Struct body) as [|fe errs] eqn:E.
      + intros [= <- <-]. split; [intros _|reflexivity].
        exists body. split; [reflexivity|].
        now apply validate_Struct_passes.
      + intros [= <- <-]. split; [discriminate|].
        intros (b & [= <-] & Hr).
        apply validate_Struct_passes in Hr. congruence.
    - intros [= <- <-]. split; [discriminate|].
      intros (b & Hb & _). discriminate. }
  destruct (string_dec (Method r) "POST") as [Hm | Hm].
  - rewrite (Method_POST r Hm).
    destruct (getParamsFromRequest (decodedBody r)) as [p e] eqn:Eg.
    specialize (Hacc p e eq_refl).
    destruct e as [e|].
    + intros [= <- <-]. simpl.
      assert (Hno : ~ exists body,
                 decodedBody r = Some body /\ in_ranges body)
        by (intros Hex; apply Hacc in Hex; discriminate).
      repeat split; try lia; try tauto; intros; try assumption.
    + unfold bind. destruct (runAll p w) as [outs w1|]; [|discriminate].
      intros [= <- <-]. simpl.
      assert (Hyes : exists body,
                 decodedBody r = Some body /\ in_ranges body)
        by (now apply Hacc).
      repeat split; try lia; try tauto; intros; try assumption.
  - rewrite (Method_not_POST r Hm). intros [= <- <-]. simpl.
    repeat split; try lia; try tauto; intros; try assumption.
Qed.

Lemma Handler_status_witness :
  let r := {| Method := "GET"; decodedBody := None |} in
  let w := constant_world 3 sample_params in
  Handler r w
  = Ok {| StatusCode := StatusMethodNotAllowed;
          Written := MethodNotAllowedText |} w /\
  Method r <> "POST"%string.
Proof.
  intros r w.
  assert (H : Handler r w
              = Ok {| StatusCode := StatusMethodNotAllowed;
                      Written := MethodNotAllowedText |} w) by reflexivity.
  split; [exact H|].
  apply (proj1 (Handler_status r w _ w H)). reflexivity.
Defined.
